(** * sync_firebase: replication of sensor samples into a keyed store

    A shallow embedding of [sync_firebase.py].  Timestamps are the ISO-8601
    strings of the program, compared as Python compares [str] values
    (lexicographically by code point, which is the order of the bytes of
    their UTF-8 encoding).  The remote endpoint and the store are
    the two collaborators of the program: the endpoint is a function from the
    number of requests already served and the query parameters to a reply,
    the store is a finite map from keys to records.  Every HTTP request and
    every [set] on the store is recorded in the world, so that statements
    on how many fetches or writes a run performs can be made. *)

From Stdlib Require Import String Ascii List Arith Lia Bool.
From stdpp Require Import base option list gmap strings fin_maps.

Open Scope string_scope.
Open Scope list_scope.

(** ** Python's order on [str] *)

Module PyStr.

(** [a <= b], [a < b] and [a == b] on strings. *)
Definition le (a b : string) : bool := String.leb a b.
Definition lt (a b : string) : bool := String.ltb a b.
Definition eq (a b : string) : bool := String.eqb a b.

(** Truth value of a string: only the empty string is false. *)
Definition truthy (s : string) : bool :=
  match s with EmptyString => false | String _ _ => true end.

(** [s.replace(old, new)] for one-character [old] and [new]. *)
Fixpoint replace (old new : ascii) (s : string) : string :=
  match s with
  | EmptyString => EmptyString
  | String c r =>
      String (if Ascii.eqb c old then new else c) (replace old new r)
  end.

End PyStr.

(** ** Data model *)

(** A sample as the endpoint returns it: [{"created_at": ..., "value": ...}],
    where [value] is itself a JSON text. *)
Record RawSample := {
  created_at : string;
  value : string
}.

Set Warnings "-register-all".

(** What [json.loads] returns.  An object is the list of its items, in the
    order of the resulting [dict]; its keys are distinct. *)
Inductive json :=
| JNull
| JBool (b : bool)
| JNum (literal : string)
| JStr (s : string)
| JArr (items : list json)
| JObj (items : list (string * json)).

(** The record stored under [/sensor_data/<key>]. *)
Record SensorRecord := {
  rec_created_at : string;
  temperature : json;
  humidity : json;
  soil : json
}.

(** Query parameters of [GET /history]. *)
Record Params := {
  feed : string;
  limit : nat;
  before_created_at : option string
}.

(** A decoded JSON body: [data] is [None] when the body has no ["data"]. *)
Record Response := { data : option (list RawSample) }.

(** What [requests.get(...).json()] does: it raises (transport failure or a
    body that is not JSON) or it returns the decoded body. *)
Inductive Reply :=
| Unavailable
| Json (response : Response).

Inductive exn :=
| RequestError
| JSONDecodeError
| KeyError (key : string)
| TypeError.

(** The world of a run: the requests served so far with their replies, the
    [set] calls issued so far, and the content of [/sensor_data]. *)
Record World := {
  fetches : list (Params * Reply);
  writes : list (string * SensorRecord);
  sensor_data : gmap string SensorRecord
}.

(** ** Computations: state, exceptions, and a bound on loop iterations *)

Inductive Res (A : Type) :=
| Ok (a : A)
| Raise (e : exn)
| OutOfFuel.
Arguments Ok {A} a.
Arguments Raise {A} e.
Arguments OutOfFuel {A}.

Definition M (A : Type) : Type := World -> Res A * World.

Definition ret {A} (a : A) : M A := fun w => (Ok a, w).

Definition bind {A B} (m : M A) (k : A -> M B) : M B :=
  fun w =>
    match m w with
    | (Ok a, w') => k a w'
    | (Raise e, w') => (Raise e, w')
    | (OutOfFuel, w') => (OutOfFuel, w')
    end.

Definition raise {A} (e : exn) : M A := fun w => (Raise e, w).

Definition out_of_fuel {A} : M A := fun w => (OutOfFuel, w).

Notation "'let*' x ':=' c1 'in' c2" := (bind c1 (fun x => c2))
  (at level 10, x name, c1 at level 100, c2 at level 200).
Notation "c1 ';;' c2" := (bind c1 (fun _ => c2))
  (at level 100, c2 at level 200, right associativity).

(** ** API configuration *)

Definition FEED : string := "json".
Definition BATCH_LIMIT : nat := 200.
Definition EARLIEST_DATE : string := "2025-10-01T00:00:00Z".

(** ** The program *)

Section Program.

(** The remote endpoint: the reply to a request, given how many requests
    were served before it. *)
Variable source : nat -> Params -> Reply.

(** [json.loads]: [None] when it raises [JSONDecodeError]. *)
Variable json_loads : string -> option json.

(** *** Primitive effects *)

(** [requests.get(f"{BASE_URL}/history", params=params).json()] *)
Definition requests_get_json (params : Params) : M Response :=
  fun w =>
    let reply := source (length (fetches w)) params in
    let w' := {| fetches := fetches w ++ [(params, reply)];
                 writes := writes w;
                 sensor_data := sensor_data w |} in
    match reply with
    | Unavailable => (Raise RequestError, w')
    | Json response => (Ok response, w')
    end.

(** [db.reference('/sensor_data').child(key).set(record)] *)
Definition child_set (key : string) (record : SensorRecord) : M unit :=
  fun w =>
    (Ok tt, {| fetches := fetches w;
               writes := writes w ++ [(key, record)];
               sensor_data := <[key := record]> (sensor_data w) |}).

(** The [created_at] of the last record of [/sensor_data] ordered by
    [created_at], when there is one. *)
Definition latest_created_at (m : gmap string SensorRecord) : option string :=
  map_fold (fun _ r acc =>
              match acc with
              | None => Some (rec_created_at r)
              | Some t =>
                  Some (if PyStr.lt t (rec_created_at r)
                        then rec_created_at r else t)
              end) None m.

(** [sensor_values[key]] on the value [json.loads] returned. *)
Fixpoint dict_get (items : list (string * json)) (key : string) : option json :=
  match items with
  | [] => None
  | (k, v) :: rest => if PyStr.eq k key then Some v else dict_get rest key
  end.

Definition getitem (j : json) (key : string) : M json :=
  match j with
  | JObj items =>
      match dict_get items key with
      | Some v => ret v
      | None => raise (KeyError key)
      end
  | _ => raise TypeError
  end.

(** *** Helper functions *)

Definition get_latest_timestamp_from_firebase : M (option string) :=
  fun w => (Ok (latest_created_at (sensor_data w)), w).

Definition fetch_batch (before_timestamp : option string) : M Response :=
  let params :=
    {| feed := FEED;
       limit := BATCH_LIMIT;
       before_created_at :=
         match before_timestamp with
         | Some t => if PyStr.truthy t then Some t else None
         | None => None
         end |} in
  requests_get_json params.

(** The body of [for sample in data_list] followed by the rest of the
    iteration; [saved_count] is the counter of the source. *)
Fixpoint save_loop (data_list : list RawSample) (saved_count : nat) : M nat :=
  match data_list with
  | [] => ret saved_count
  | sample :: rest =>
      let timestamp_key :=
        PyStr.replace "." "-" (PyStr.replace ":" "-" (created_at sample)) in
      let* sensor_values :=
        match json_loads (value sample) with
        | Some j => ret j
        | None => raise JSONDecodeError
        end in
      let* t := getitem sensor_values "temperature" in
      let* h := getitem sensor_values "humidity" in
      let* s := getitem sensor_values "soil" in
      let record := {| rec_created_at := created_at sample;
                       temperature := t;
                       humidity := h;
                       soil := s |} in
      child_set timestamp_key record ;;
      save_loop rest (saved_count + 1)
  end.

Definition save_to_firebase (data_list : list RawSample) : M nat :=
  save_loop data_list 0.

(** *** Mode A: full download *)

(** The variables of the [while True] loop of [download_all_data]. *)
Record LoopState := {
  all_data : list RawSample;
  previous_oldest : option string;
  batch_count : nat;
  stuck_count : nat
}.

(** The [break] statements of the loop, in the order of the source. *)
Inductive Exit :=
| NothingCollected      (* if not all_data *)
| Stuck                 (* No more older data available *)
| ReachedEarliestDate   (* Reached earliest date limit: EARLIEST_DATE *)
| BatchCutShort         (* Reached earliest date limit *)
| NoNewData             (* No new data in batch *)
| NoMoreData            (* No more data available *)
| SafetyLimit.          (* Safety limit reached *)

Inductive Step :=
| Break (why : Exit) (all_data : list RawSample)
| Continue (st : LoopState).

Definition in_range (before_timestamp : string) (sample : RawSample) : bool :=
  PyStr.le EARLIEST_DATE (created_at sample)
  && PyStr.lt (created_at sample) before_timestamp.

Definition not_before_earliest (sample : RawSample) : bool :=
  PyStr.le EARLIEST_DATE (created_at sample).

(** One execution of the body of [while True]. *)
Definition loop_body (st : LoopState) : M Step :=
  match last (all_data st) with
  | None => ret (Break NothingCollected (all_data st))
  | Some oldest =>
      let before_timestamp := created_at oldest in
      let is_stuck :=
        match previous_oldest st with
        | Some p => PyStr.eq before_timestamp p
        | None => false
        end in
      let stuck_count' := if is_stuck then stuck_count st + 1 else 0 in
      if is_stuck && (2 <=? stuck_count')%nat
      then ret (Break Stuck (all_data st))
      else
        let previous_oldest' := Some before_timestamp in
        if PyStr.le before_timestamp EARLIEST_DATE
        then ret (Break ReachedEarliestDate
                    (List.filter not_before_earliest (all_data st)))
        else
          let* response := fetch_batch (Some before_timestamp) in
          match data response with
          | Some ((_ :: _) as page) =>
              let batch_count' := batch_count st + 1 in
              let filtered_batch :=
                List.filter (in_range before_timestamp) page in
              match filtered_batch with
              | _ :: _ =>
                  let all_data' := all_data st ++ filtered_batch in
                  if (length filtered_batch <? length page)%nat
                  then ret (Break BatchCutShort all_data')
                  else if (1000 <? batch_count')%nat
                  then ret (Break SafetyLimit all_data')
                  else ret (Continue {| all_data := all_data';
                                        previous_oldest := previous_oldest';
                                        batch_count := batch_count';
                                        stuck_count := stuck_count' |})
              | [] => ret (Break NoNewData (all_data st))
              end
          | _ => ret (Break NoMoreData (all_data st))
          end
  end.

(** [while True: body], unfolded at most [fuel] times. *)
Fixpoint while_True (fuel : nat) (st : LoopState) : M (Exit * list RawSample) :=
  match fuel with
  | O => out_of_fuel
  | S fuel' =>
      let* step := loop_body st in
      match step with
      | Break why result => ret (why, result)
      | Continue st' => while_True fuel' st'
      end
  end.

(** [download_all_data], with the exit taken by the loop next to the list
    it returns; [None] is the early [return []]. *)
Definition download_all_data_exit (fuel : nat)
  : M (option Exit * list RawSample) :=
  let* response := fetch_batch None in
  match data response with
  | None => ret (None, [])
  | Some page =>
      let* out := while_True fuel {| all_data := [] ++ page;
                                     previous_oldest := None;
                                     batch_count := 1;
                                     stuck_count := 0 |} in
      ret (Some (fst out), snd out)
  end.

Definition download_all_data (fuel : nat) : M (list RawSample) :=
  let* out := download_all_data_exit fuel in
  ret (snd out).

(** *** Mode B: only what is newer than the store *)

(** [for sample in response["data"]] of [download_new_data]. *)
Fixpoint scan_new (latest_timestamp : string) (page new_data : list RawSample)
  : list RawSample :=
  match page with
  | [] => new_data
  | sample :: rest =>
      if PyStr.lt latest_timestamp (created_at sample)
      then scan_new latest_timestamp rest (new_data ++ [sample])
      else new_data
  end.

Definition download_new_data (latest_timestamp : string) : M (list RawSample) :=
  let* response := fetch_batch None in
  match data response with
  | None => ret []
  | Some page => ret (scan_new latest_timestamp page [])
  end.

(** *** Main execution *)

Definition is_truthy (o : option string) : bool :=
  match o with Some t => PyStr.truthy t | None => false end.

(** The branch of [main] taken when the store has a latest timestamp. *)
Definition incremental (latest_timestamp : string) : M unit :=
  let* new_data := download_new_data latest_timestamp in
  match new_data with
  | _ :: _ => let* saved := save_to_firebase new_data in ret tt
  | [] => ret tt
  end.

(** The branch of [main] taken when it has none. *)
Definition full_download (fuel : nat) : M unit :=
  let* all_data := download_all_data fuel in
  match all_data with
  | _ :: _ => let* saved := save_to_firebase all_data in ret tt
  | [] => ret tt
  end.

Definition main (fuel : nat) : M unit :=
  let* latest_timestamp := get_latest_timestamp_from_firebase in
  match latest_timestamp with
  | Some t => if PyStr.truthy t then incremental t else full_download fuel
  | None => full_download fuel
  end.

End Program.

(** ** What a run leaves behind *)

Definition exec {A} (m : M A) (w : World) : World := snd (m w).
Definition result {A} (m : M A) (w : World) : Res A := fst (m w).

(** The requests, resp. the writes, a computation adds to those of [w]. *)
Definition new_fetches {A} (m : M A) (w : World) : list (Params * Reply) :=
  drop (length (fetches w)) (fetches (exec m w)).
Definition new_writes {A} (m : M A) (w : World) : list (string * SensorRecord) :=
  drop (length (writes w)) (writes (exec m w)).

(** The request for the newest page, and the one for the page before a
    cursor. *)
Definition newest_page : Params :=
  {| feed := FEED; limit := BATCH_LIMIT; before_created_at := None |}.
Definition page_before (cursor : string) : Params :=
  {| feed := FEED; limit := BATCH_LIMIT; before_created_at := Some cursor |}.

(** The key under which a sample is stored. *)
Definition timestamp_key (sample : RawSample) : string :=
  PyStr.replace "." "-" (PyStr.replace ":" "-" (created_at sample)).

Section Decoding.

Variable json_loads : string -> option json.

Definition field (j : json) (key : string) : Res json :=
  match j with
  | JObj items =>
      match dict_get items key with
      | Some v => Ok v
      | None => Raise (KeyError key)
      end
  | _ => Raise TypeError
  end.

(** The record one iteration of [save_to_firebase] builds from a sample,
    or the exception it raises before writing anything. *)
Definition sensor_record (sample : RawSample) : Res SensorRecord :=
  match json_loads (value sample) with
  | None => Raise JSONDecodeError
  | Some j =>
      match field j "temperature" with
      | Ok t =>
          match field j "humidity" with
          | Ok h =>
              match field j "soil" with
              | Ok s => Ok {| rec_created_at := created_at sample;
                              temperature := t; humidity := h; soil := s |}
              | Raise e => Raise e
              | OutOfFuel => OutOfFuel
              end
          | Raise e => Raise e
          | OutOfFuel => OutOfFuel
          end
      | Raise e => Raise e
      | OutOfFuel => OutOfFuel
      end
  end.

Definition decodes (sample : RawSample) : Prop :=
  exists record, sensor_record sample = Ok record.

(** The [value] of a sample is not parseable, or the parsed value lacks one
    of the three fields. *)
Definition lacks (j : json) (key : string) : Prop :=
  forall v, field j key <> Ok v.

Definition undecodable (sample : RawSample) : Prop :=
  match json_loads (value sample) with
  | None => True
  | Some j => lacks j "temperature" \/ lacks j "humidity" \/ lacks j "soil"
  end.

(** The [(key, record)] pairs [save_to_firebase] writes for a list: those of
    the samples before the first one that does not decode. *)
Fixpoint saved_entries (data_list : list RawSample)
  : list (string * SensorRecord) :=
  match data_list with
  | [] => []
  | sample :: rest =>
      match sensor_record sample with
      | Ok record => (timestamp_key sample, record) :: saved_entries rest
      | _ => []
      end
  end.

(** What [save_to_firebase] returns or raises. *)
Fixpoint save_outcome (data_list : list RawSample) (saved_count : nat) : Res nat :=
  match data_list with
  | [] => Ok saved_count
  | sample :: rest =>
      match sensor_record sample with
      | Ok _ => save_outcome rest (saved_count + 1)
      | Raise e => Raise e
      | OutOfFuel => OutOfFuel
      end
  end.

End Decoding.

(** A store after a sequence of [set] calls. *)
Definition put_all (entries : list (string * SensorRecord))
  (m : gmap string SensorRecord) : gmap string SensorRecord :=
  foldl (fun acc e => <[e.1 := e.2]> acc) m entries.

(** ** Notions used in the statements *)

(** The world after one more request was served. *)
Definition served (source : nat -> Params -> Reply) (params : Params)
  (w : World) : World :=
  {| fetches := fetches w ++ [(params, source (length (fetches w)) params)];
     writes := writes w;
     sensor_data := sensor_data w |}.

(** The query parameters [fetch_batch] builds. *)
Definition params_of (before_timestamp : option string) : Params :=
  {| feed := FEED;
     limit := BATCH_LIMIT;
     before_created_at :=
       match before_timestamp with
       | Some t => if PyStr.truthy t then Some t else None
       | None => None
       end |}.

(** The sample is strictly newer than the watermark [T]. *)
Definition newer_than (T : string) (sample : RawSample) : Prop :=
  PyStr.lt T (created_at sample) = true.

(** The outcome of a branch of [main] that saved: the count is dropped. *)
Definition unit_of (r : Res nat) : Res unit :=
  match r with
  | Ok _ => Ok tt
  | Raise e => Raise e
  | OutOfFuel => OutOfFuel
  end.

(** The world after [entries] were written on top of [w]. *)
Definition stored (entries : list (string * SensorRecord)) (w : World) : World :=
  {| fetches := fetches w;
     writes := writes w ++ entries;
     sensor_data := put_all entries (sensor_data w) |}.

(** The cursor of an iteration: [all_data[-1]["created_at"]]. *)
Definition cursor (st : LoopState) : option string :=
  created_at <$> last (all_data st).

(** [before_timestamp == previous_oldest] *)
Definition repeats (st : LoopState) (c : string) : bool :=
  match previous_oldest st with
  | Some p => PyStr.eq c p
  | None => false
  end.

(** The stuck counter after the stuck check. *)
Definition next_stuck_count (st : LoopState) (c : string) : nat :=
  if repeats st c then stuck_count st + 1 else 0.

(** The outcomes of one iteration, each with the conditions under which the
    source takes it. *)
Inductive iteration (source : nat -> Params -> Reply) (st : LoopState) (w : World)
  : Res Step -> World -> Prop :=
| it_nothing :
    all_data st = [] ->
    iteration source st w (Ok (Break NothingCollected [])) w
| it_stuck c :
    cursor st = Some c ->
    repeats st c = true -> 1 <= stuck_count st ->
    iteration source st w (Ok (Break Stuck (all_data st))) w
| it_floor c :
    cursor st = Some c ->
    (repeats st c = false \/ stuck_count st = 0) ->
    PyStr.le c EARLIEST_DATE = true ->
    iteration source st w
      (Ok (Break ReachedEarliestDate
             (List.filter not_before_earliest (all_data st)))) w
| it_unavailable c :
    cursor st = Some c ->
    (repeats st c = false \/ stuck_count st = 0) ->
    PyStr.lt EARLIEST_DATE c = true ->
    source (length (fetches w)) (page_before c) = Unavailable ->
    iteration source st w (Raise RequestError)
      (served source (page_before c) w)
| it_no_more c response :
    cursor st = Some c ->
    (repeats st c = false \/ stuck_count st = 0) ->
    PyStr.lt EARLIEST_DATE c = true ->
    source (length (fetches w)) (page_before c) = Json response ->
    (data response = None \/ data response = Some []) ->
    iteration source st w (Ok (Break NoMoreData (all_data st)))
      (served source (page_before c) w)
| it_no_new c page :
    cursor st = Some c ->
    (repeats st c = false \/ stuck_count st = 0) ->
    PyStr.lt EARLIEST_DATE c = true ->
    source (length (fetches w)) (page_before c) = Json {| data := Some page |} ->
    page <> [] ->
    List.filter (in_range c) page = [] ->
    iteration source st w (Ok (Break NoNewData (all_data st)))
      (served source (page_before c) w)
| it_cut_short c page :
    cursor st = Some c ->
    (repeats st c = false \/ stuck_count st = 0) ->
    PyStr.lt EARLIEST_DATE c = true ->
    source (length (fetches w)) (page_before c) = Json {| data := Some page |} ->
    List.filter (in_range c) page <> [] ->
    length (List.filter (in_range c) page) < length page ->
    iteration source st w
      (Ok (Break BatchCutShort (all_data st ++ List.filter (in_range c) page)))
      (served source (page_before c) w)
| it_safety c page :
    cursor st = Some c ->
    (repeats st c = false \/ stuck_count st = 0) ->
    PyStr.lt EARLIEST_DATE c = true ->
    source (length (fetches w)) (page_before c) = Json {| data := Some page |} ->
    page <> [] ->
    List.filter (in_range c) page = page ->
    1000 < batch_count st + 1 ->
    iteration source st w (Ok (Break SafetyLimit (all_data st ++ page)))
      (served source (page_before c) w)
| it_continue c page :
    cursor st = Some c ->
    (repeats st c = false \/ stuck_count st = 0) ->
    PyStr.lt EARLIEST_DATE c = true ->
    source (length (fetches w)) (page_before c) = Json {| data := Some page |} ->
    page <> [] ->
    List.filter (in_range c) page = page ->
    batch_count st + 1 <= 1000 ->
    iteration source st w
      (Ok (Continue {| all_data := all_data st ++ page;
                       previous_oldest := Some c;
                       batch_count := batch_count st + 1;
                       stuck_count := next_stuck_count st c |}))
      (served source (page_before c) w).

(** The state in which [download_all_data] enters the loop. *)
Definition start (page : list RawSample) : LoopState :=
  {| all_data := page; previous_oldest := None;
     batch_count := 1; stuck_count := 0 |}.

(** The outcome of the loop as [download_all_data_exit] returns it. *)
Definition tag_exit (r : Res (Exit * list RawSample))
  : Res (option Exit * list RawSample) :=
  match r with
  | Ok out => Ok (Some (fst out), snd out)
  | Raise e => Raise e
  | OutOfFuel => OutOfFuel
  end.

(** The outcome without the exit taken. *)
Definition untag {A B} (r : Res (A * B)) : Res B :=
  match r with
  | Ok out => Ok (snd out)
  | Raise e => Raise e
  | OutOfFuel => OutOfFuel
  end.

(** What a download leaves untouched, and what it adds to the requests. *)
Definition frame (w0 w : World) (log : list (Params * Reply)) : Prop :=
  fetches w = fetches w0 ++ log
  /\ writes w = writes w0
  /\ sensor_data w = sensor_data w0.

(** The states the loop goes through, from a given one. *)
Inductive reaches (source : nat -> Params -> Reply)
  (st0 : LoopState) (w0 : World) : LoopState -> World -> Prop :=
| reaches_here : reaches source st0 w0 st0 w0
| reaches_next st1 w1 st2 w2 :
    reaches source st0 w0 st1 w1 ->
    loop_body source st1 w1 = (Ok (Continue st2), w2) ->
    reaches source st0 w0 st2 w2.

(** The stuck counter is 0 and the cursor is below the previous one. *)
Definition advancing (st : LoopState) : Prop :=
  stuck_count st = 0
  /\ forall p, previous_oldest st = Some p ->
               exists c, cursor st = Some c /\ PyStr.lt c p = true.

(** A page is ordered descending by [created_at] (ties allowed). *)
Fixpoint descending (page : list RawSample) : bool :=
  match page with
  | a :: ((b :: _) as rest) =>
      PyStr.le (created_at b) (created_at a) && descending rest
  | _ => true
  end.

(** Every page the source returns is ordered descending. *)
Definition pages_descending (source : nat -> Params -> Reply) : Prop :=
  forall n params page,
    source n params = Json {| data := Some page |} -> descending page = true.

(** [created_at >= EARLIEST_DATE] *)
Definition on_or_after_floor (sample : RawSample) : Prop :=
  PyStr.le EARLIEST_DATE (created_at sample) = true.

(** Before the first floor check the list is the initial page; after it,
    every collected sample is on or after the floor. *)
Definition floor_inv (st : LoopState) : Prop :=
  (previous_oldest st = None /\ descending (all_data st) = true)
  \/ Forall on_or_after_floor (all_data st).

(** The source answers a request the same way whenever it is asked. *)
Definition unchanging (source : nat -> Params -> Reply) : Prop :=
  forall n m params, source n params = source m params.

(** The oldest timestamp of the page a request was answered with. *)
Definition oldest_of (entry : Params * Reply) : option string :=
  match entry.2 with
  | Json {| data := Some page |} => created_at <$> last page
  | _ => None
  end.

(** Two consecutive fetches of the log returned the same oldest timestamp. *)
Definition repeated_at (log : list (Params * Reply)) (i : nat) : Prop :=
  exists e1 e2 t,
    log !! i = Some e1 /\ log !! S i = Some e2
    /\ oldest_of e1 = Some t /\ oldest_of e2 = Some t.

(** No two consecutive fetches returned the same oldest timestamp. *)
Definition no_repeat (log : list (Params * Reply)) : Prop :=
  forall i, ~ repeated_at log i.

(** A repetition, if any, is made of the last two fetches of the log. *)
Definition repeat_ends (log : list (Params * Reply)) : Prop :=
  forall i, repeated_at log i -> length log = S (S i).

(** The log so far has no repetition, and the cursor is the oldest timestamp
    of the page fetched last. *)
Definition trace_inv (w0 : World) (st : LoopState) (w : World) : Prop :=
  exists log e,
    frame w0 w log /\ no_repeat log
    /\ last log = Some e /\ oldest_of e = cursor st.

(** What the loop keeps of the page a request was answered with. *)
Definition collected_from (entry : Params * Reply) : list RawSample :=
  match entry.2 with
  | Json {| data := Some page |} =>
      match before_created_at entry.1 with
      | None => page
      | Some c => List.filter (in_range c) page
      end
  | _ => []
  end.

(** Everything gathered along a log of fetches. *)
Definition gathered (log : list (Params * Reply)) : list RawSample :=
  flat_map collected_from log.

(** The reply carries no sample: no [data] field, or an empty [data]. *)
Definition without_data (reply : Reply) : Prop :=
  exists response, reply = Json response
    /\ (data response = None \/ data response = Some []).

(** The reply carries at least one sample. *)
Definition with_data (reply : Reply) : Prop :=
  exists page, reply = Json {| data := Some page |} /\ page <> [].

(** The list collected so far is what the log has gathered, and every paged
    fetch so far returned samples. *)
Definition gather_inv (w0 : World) (st : LoopState) (w : World) : Prop :=
  exists log,
    frame w0 w log /\ log <> [] /\ all_data st = gathered log
    /\ forall i e, log !! S i = Some e -> with_data e.2.

(** When a paged fetch of the log has no data, it is the last one, and the
    loop returned all that was gathered before it. *)
Definition ends_at_no_data (r : Res (Exit * list RawSample))
  (log : list (Params * Reply)) : Prop :=
  forall i e, log !! S i = Some e -> without_data e.2 ->
    length log = S (S i)
    /\ r = Ok (NoMoreData, gathered (take (S i) log))
    /\ gathered (take (S i) log) <> [].

(** The entries an incremental run writes, given the reply to its request. *)
Definition incremental_entries (json_loads : string -> option json)
  (T : string) (reply : Reply) : list (string * SensorRecord) :=
  match reply with
  | Json {| data := Some page |} => saved_entries json_loads (scan_new T page [])
  | _ => []
  end.

(** ** Notions for the store and the keys *)

(** The character occurs in the string. *)
Fixpoint occurs (c : ascii) (s : string) : bool :=
  match s with
  | EmptyString => false
  | String a r => Ascii.eqb a c || occurs c r
  end.

(** The character a key holds where the timestamp holds [c]. *)
Definition key_char (c : ascii) : ascii :=
  if Ascii.eqb c ":" then "-"%char
  else if Ascii.eqb c "." then "-"%char else c.

(** [t] is the [created_at] of a stored record and no stored record has a
    later one. *)
Definition is_latest (m : gmap string SensorRecord) (t : string) : Prop :=
  (exists key record, m !! key = Some record /\ rec_created_at record = t)
  /\ forall key record, m !! key = Some record ->
        PyStr.le (rec_created_at record) t = true.

(** Samples stored under the same key carry the same timestamp. *)
Definition keys_faithful (l : list RawSample) : Prop :=
  forall a b, In a l -> In b l ->
    timestamp_key a = timestamp_key b -> created_at a = created_at b.

(** The record a sequence of [set] calls leaves under a key: that of the
    last call on that key. *)
Fixpoint binding (key : string) (entries : list (string * SensorRecord))
  : option SensorRecord :=
  match entries with
  | [] => None
  | (k, record) :: rest =>
      match binding key rest with
      | Some later => Some later
      | None => if String.eqb k key then Some record else None
      end
  end.

(** ** Notions for the log of a download *)

(** The relation holds of every two consecutive entries of the log. *)
Definition consecutive (R : Params * Reply -> Params * Reply -> Prop)
  (log : list (Params * Reply)) : Prop :=
  forall i a b, log !! i = Some a -> log !! S i = Some b -> R a b.

(** The request [b] asks for the page before the oldest timestamp [a]
    returned, which is after the floor; and when [a] had a cursor itself,
    the cursor of [b] is strictly below it. *)
Definition follows (a b : Params * Reply) : Prop :=
  (exists c, oldest_of a = Some c /\ b.1 = page_before c
             /\ PyStr.lt EARLIEST_DATE c = true)
  /\ forall c1, before_created_at a.1 = Some c1 ->
        exists c2, before_created_at b.1 = Some c2 /\ PyStr.lt c2 c1 = true.

(** Every entry of the log is a request with the configured feed and limit,
    answered by the source in the order of the log. *)
Definition genuine (source : nat -> Params -> Reply) (w0 : World)
  (log : list (Params * Reply)) : Prop :=
  forall i e, log !! i = Some e ->
    e.2 = source (length (fetches w0) + i) e.1
    /\ feed e.1 = FEED /\ limit e.1 = BATCH_LIMIT.

(** The log starts with the request for the newest page. *)
Definition starts_newest (log : list (Params * Reply)) : Prop :=
  exists e0, log !! 0 = Some e0 /\ e0.1 = newest_page.

(** The request was answered: it did not fail. *)
Definition answered (e : Params * Reply) : Prop := e.2 <> Unavailable.

(** The list a download returns, given the exit taken and the log. *)
Definition returned (why : Exit) (log : list (Params * Reply)) : list RawSample :=
  match why with
  | ReachedEarliestDate => List.filter not_before_earliest (gathered log)
  | _ => gathered log
  end.

(** How the outcome of the loop relates to the log: a list is returned only
    when every request was answered, and it is what the log gathered; the
    only exception is that of a failed request, which is the last one. *)
Definition outcome (r : Res (Exit * list RawSample))
  (log : list (Params * Reply)) : Prop :=
  match r with
  | Ok (why, l) => Forall answered log /\ l = returned why log
  | Raise e =>
      e = RequestError
      /\ exists log0 params,
           log = log0 ++ [(params, Unavailable)] /\ Forall answered log0
  | OutOfFuel => False
  end.

(** The invariant of the loop of [download_all_data] on the state and the
    log. *)
Definition run_inv (source : nat -> Params -> Reply) (w0 : World)
  (st : LoopState) (w : World) : Prop :=
  exists log e,
    starts_newest log
    /\ frame w0 w log
    /\ length log = batch_count st /\ batch_count st <= 1000
    /\ all_data st = gathered log
    /\ genuine source w0 log
    /\ Forall answered log
    /\ consecutive follows log
    /\ last log = Some e
    /\ oldest_of e = cursor st
    /\ forall c t, before_created_at e.1 = Some c -> oldest_of e = Some t ->
          PyStr.lt t c = true.

(** What holds of the log when the loop is left. *)
Definition run_post (source : nat -> Params -> Reply) (w0 : World)
  (r : Res (Exit * list RawSample)) (w : World) : Prop :=
  exists log,
    starts_newest log
    /\ frame w0 w log
    /\ 1 <= length log <= 1001
    /\ genuine source w0 log
    /\ consecutive follows log
    /\ outcome r log.

(** The source never returns more samples than the request allows. *)
Definition honours_limit (source : nat -> Params -> Reply) : Prop :=
  forall n params page,
    source n params = Json {| data := Some page |} ->
    length page <= limit params.

(** ** Concrete runs *)

Module Demo.

Definition dq : ascii := "034"%char.

Definition quoted (s : string) : string := String dq (s ++ String dq "").

(** The text of a complete reading, and of one without [soil]. *)
Definition reading_text : string :=
  "{" ++ quoted "temperature" ++ ": 21.5, " ++ quoted "humidity" ++ ": 40, "
      ++ quoted "soil" ++ ": 312}".

Definition no_soil_text : string :=
  "{" ++ quoted "temperature" ++ ": 21.5, " ++ quoted "humidity" ++ ": 40}".

(** [json.loads] on the texts used here; any other text is rejected. *)
Definition loads (text : string) : option json :=
  if String.eqb text reading_text
  then Some (JObj [("temperature", JNum "21.5"); ("humidity", JNum "40");
                   ("soil", JNum "312")])
  else if String.eqb text no_soil_text
  then Some (JObj [("temperature", JNum "21.5"); ("humidity", JNum "40")])
  else None.

Definition sample_at (ts : string) : RawSample :=
  {| created_at := ts; value := reading_text |}.

Definition record_at (ts : string) : SensorRecord :=
  {| rec_created_at := ts; temperature := JNum "21.5";
     humidity := JNum "40"; soil := JNum "312" |}.

Definition t0 : string := "2025-11-02T09:59:00Z".
Definition t1 : string := "2025-11-02T10:00:00Z".
Definition t2 : string := "2025-11-02T10:01:00Z".
Definition t3 : string := "2025-11-02T10:02:00Z".
Definition t4 : string := "2025-11-02T10:03:00Z".
Definition t5 : string := "2025-11-02T10:04:00Z".

Definition page_of (l : list RawSample) : Reply := Json {| data := Some l |}.

Definition empty_world : World :=
  {| fetches := []; writes := []; sensor_data := ∅ |}.

(** A store that holds the reading of [t1]. *)
Definition synced_world : World :=
  {| fetches := []; writes := [];
     sensor_data := {[ "2025-11-02T10-00-00Z" := record_at t1 ]} |}.

(** The newest page holds three samples after [t1], the one of [t1] and an
    older one. *)
Definition newest_five : list RawSample :=
  [sample_at t4; sample_at t3; sample_at t2; sample_at t1; sample_at t0].

Definition five_source (n : nat) (params : Params) : Reply :=
  page_of newest_five.

(** Two pages of two samples, then a reply without [data]. *)
Definition paged_source (n : nat) (params : Params) : Reply :=
  match before_created_at params with
  | None => page_of [sample_at t5; sample_at t4]
  | Some c =>
      if String.eqb c t4 then page_of [sample_at t3; sample_at t2]
      else Json {| data := None |}
  end.

(** Every paged request is answered with the same page. *)
Definition repeating_source (n : nat) (params : Params) : Reply :=
  match before_created_at params with
  | None => page_of [sample_at t5; sample_at t4]
  | Some c => page_of [sample_at t3; sample_at t2]
  end.

(** The page before a cursor starts with the record at the cursor. *)
Definition inclusive_source (n : nat) (params : Params) : Reply :=
  match before_created_at params with
  | None => page_of [sample_at t5; sample_at t4]
  | Some c =>
      if String.eqb c t4 then page_of [sample_at t4; sample_at t3]
      else if String.eqb c t3 then page_of [sample_at t3; sample_at t2]
      else if String.eqb c t2 then page_of [sample_at t2; sample_at t1]
      else page_of []
  end.

End Demo.

(** ** More concrete runs *)

Module Cases.

(** The first reply has no [data]. *)
Definition silent_source (n : nat) (params : Params) : Reply :=
  Json {| data := None |}.

(** The first request is answered, every later one fails. *)
Definition failing_source (n : nat) (params : Params) : Reply :=
  match before_created_at params with
  | None => Demo.page_of [Demo.sample_at Demo.t5; Demo.sample_at Demo.t4]
  | Some c => Unavailable
  end.

(** A sample whose reading lacks [soil]. *)
Definition no_soil_at (ts : string) : RawSample :=
  {| created_at := ts; value := Demo.no_soil_text |}.

(** One page whose second sample does not decode, and nothing before it. *)
Definition flawed_source (n : nat) (params : Params) : Reply :=
  match before_created_at params with
  | None =>
      Demo.page_of [Demo.sample_at Demo.t5; no_soil_at Demo.t4;
                    Demo.sample_at Demo.t3]
  | Some c => Json {| data := None |}
  end.

(** Timestamps before [EARLIEST_DATE]. *)
Definition old1 : string := "2025-09-01T00:00:00Z".
Definition old2 : string := "2025-09-15T00:00:00Z".

(** A store whose latest record is before the floor. *)
Definition old_world : World :=
  {| fetches := []; writes := [];
     sensor_data := {[ "2025-09-01T00-00-00Z" := Demo.record_at old1 ]} |}.

(** The newest page holds one sample, newer than that record and still
    before the floor. *)
Definition old_source (n : nat) (params : Params) : Reply :=
  Demo.page_of [Demo.sample_at old2].

(** The pages of [Demo.paged_source], cut to the limit of the request. *)
Definition limited_source (n : nat) (params : Params) : Reply :=
  match Demo.paged_source n params with
  | Json {| data := Some page |} =>
      Json {| data := Some (take (limit params) page) |}
  | reply => reply
  end.


End Cases.

(** ** Facts on the order of strings *)

Module PyStrFacts.
Import PyStr.

Lemma compare_refl (s : string) : String.compare s s = Eq.
Proof.
  induction s as [|c s IH]; simpl; [reflexivity|].
  unfold Ascii.compare. rewrite N.compare_refl. exact IH.
Qed.

Lemma lt_irrefl (s : string) : lt s s = false.
Proof. unfold lt, String.ltb. now rewrite compare_refl. Qed.

Lemma le_refl (s : string) : le s s = true.
Proof. unfold le, String.leb. now rewrite compare_refl. Qed.

Lemma lt_not_le (a b : string) : lt a b = negb (le b a).
Proof.
  unfold lt, le, String.ltb, String.leb.
  rewrite (String.compare_antisym b a).
  destruct (String.compare a b); reflexivity.
Qed.

Lemma le_not_lt (a b : string) : le a b = negb (lt b a).
Proof. rewrite lt_not_le. now rewrite negb_involutive. Qed.

Lemma le_trans (a b c : string) :
  le a b = true -> le b c = true -> le a c = true.
Proof.
  unfold le. intros Hab Hbc.
  apply Is_true_true. apply Is_true_true in Hab, Hbc.
  exact (transitivity (R := String.le) Hab Hbc).
Qed.

Lemma lt_le (a b : string) : lt a b = true -> le a b = true.
Proof.
  unfold lt, le, String.ltb, String.leb.
  destruct (String.compare a b); congruence.
Qed.

Lemma lt_neq (a b : string) : lt a b = true -> a <> b.
Proof. intros H ->. rewrite lt_irrefl in H. discriminate. Qed.

Lemma eq_true (a b : string) : eq a b = true <-> a = b.
Proof. apply String.eqb_eq. Qed.

End PyStrFacts.

(** ** Facts on the monad and on saving *)

Lemma world_eta (w : World) :
  {| fetches := fetches w; writes := writes w; sensor_data := sensor_data w |} = w.
Proof. now destruct w. Qed.

Lemma getitem_field j key w : getitem j key w = (field j key, w).
Proof.
  destruct j; try reflexivity. simpl.
  destruct (dict_get items key); reflexivity.
Qed.

Lemma save_loop_run json_loads data_list saved_count w :
  save_loop json_loads data_list saved_count w =
  (save_outcome json_loads data_list saved_count,
   {| fetches := fetches w;
      writes := writes w ++ saved_entries json_loads data_list;
      sensor_data := put_all (saved_entries json_loads data_list) (sensor_data w) |}).
Proof.
  revert saved_count w.
  induction data_list as [|sample rest IH]; intros saved_count w.
  - simpl. unfold ret. now rewrite app_nil_r, world_eta.
  - cbn [save_loop saved_entries save_outcome]. unfold sensor_record, bind.
    destruct (json_loads (value sample)) as [j|]; cbn;
      [|now rewrite app_nil_r, world_eta].
    rewrite !getitem_field.
    destruct (field j "temperature") as [t| |]; cbn;
      try now rewrite app_nil_r, world_eta.
    destruct (field j "humidity") as [h| |]; cbn;
      try now rewrite app_nil_r, world_eta.
    destruct (field j "soil") as [s| |]; cbn;
      try now rewrite app_nil_r, world_eta.
    rewrite IH. cbn. now rewrite <- app_assoc.
Qed.

Lemma save_to_firebase_run json_loads data_list w :
  save_to_firebase json_loads data_list w =
  (save_outcome json_loads data_list 0,
   {| fetches := fetches w;
      writes := writes w ++ saved_entries json_loads data_list;
      sensor_data := put_all (saved_entries json_loads data_list) (sensor_data w) |}).
Proof. apply save_loop_run. Qed.

(** ** Facts on fetching *)

Lemma fetch_batch_run source before_timestamp w :
  fetch_batch source before_timestamp w =
  (match source (length (fetches w)) (params_of before_timestamp) with
   | Unavailable => Raise RequestError
   | Json response => Ok response
   end,
   served source (params_of before_timestamp) w).
Proof.
  unfold fetch_batch, requests_get_json, served, params_of.
  destruct (source _ _); reflexivity.
Qed.

(** ** Mode B *)

Lemma scan_new_split T page acc :
  exists newer rest,
    page = newer ++ rest /\
    Forall (newer_than T) newer /\
    match rest with
    | [] => True
    | sample :: _ => PyStr.le (created_at sample) T = true
    end /\
    scan_new T page acc = acc ++ newer.
Proof.
  revert acc. induction page as [|sample page IH]; intros acc.
  - exists [], []. cbn. rewrite app_nil_r. auto.
  - cbn [scan_new]. destruct (PyStr.lt T (created_at sample)) eqn:Hlt.
    + destruct (IH (acc ++ [sample])) as (newer & rest & -> & Hall & Hrest & ->).
      exists (sample :: newer), rest. rewrite <- app_assoc. cbn.
      repeat split; auto.
    + exists [], (sample :: page). cbn. rewrite app_nil_r.
      repeat split; auto.
      rewrite PyStrFacts.le_not_lt, Hlt. reflexivity.
Qed.

Lemma newer_prefix_longest T (newer rest p : list RawSample) :
  match rest with
  | [] => True
  | sample :: _ => PyStr.le (created_at sample) T = true
  end ->
  p `prefix_of` newer ++ rest ->
  Forall (newer_than T) p ->
  p `prefix_of` newer.
Proof.
  intros Hrest. revert p. induction newer as [|x newer IH]; intros p Hp Hall.
  - cbn in Hp. destruct p as [|y p]; [apply prefix_nil|].
    destruct rest as [|z rest]; [now apply prefix_nil_not in Hp|].
    apply prefix_cons_inv_1 in Hp. subst z.
    apply Forall_cons_1 in Hall as [Hy _]. unfold newer_than in Hy.
    rewrite PyStrFacts.lt_not_le, Hrest in Hy. discriminate.
  - destruct p as [|y p]; [apply prefix_nil|].
    cbn in Hp. pose proof (prefix_cons_inv_1 _ _ _ _ Hp) as ->.
    apply prefix_cons. apply IH.
    + now apply prefix_cons_inv_2 in Hp.
    + now apply Forall_cons_1 in Hall as [_ ?].
Qed.

Lemma stored_nil w : stored [] w = w.
Proof. unfold stored. cbn. now rewrite app_nil_r, world_eta. Qed.

(** Saving a list when it is not empty, as both branches of [main] do. *)
Lemma save_if_any_run json_loads (l : list RawSample) w :
  match l with
  | _ :: _ => let* saved := save_to_firebase json_loads l in ret tt
  | [] => ret tt
  end w =
  (unit_of (save_outcome json_loads l 0), stored (saved_entries json_loads l) w).
Proof.
  destruct l as [|x l].
  - cbn. now rewrite stored_nil.
  - unfold bind. rewrite save_to_firebase_run.
    destruct (save_outcome json_loads (x :: l) 0); reflexivity.
Qed.

Lemma incremental_run source json_loads T page w :
  source (length (fetches w)) newest_page = Json {| data := Some page |} ->
  incremental source json_loads T w =
  (unit_of (save_outcome json_loads (scan_new T page []) 0),
   stored (saved_entries json_loads (scan_new T page []))
          (served source newest_page w)).
Proof.
  intros Hreply. unfold incremental, download_new_data.
  unfold bind at 1. unfold bind at 1. rewrite fetch_batch_run.
  change (params_of None) with newest_page. rewrite Hreply. cbn [data].
  unfold ret at 1. apply save_if_any_run.
Qed.

Lemma main_incremental source json_loads fuel T w :
  latest_created_at (sensor_data w) = Some T ->
  PyStr.truthy T = true ->
  main source json_loads fuel w = incremental source json_loads T w.
Proof.
  intros Hlatest Htruthy. unfold main, bind at 1.
  unfold get_latest_timestamp_from_firebase. now rewrite Hlatest, Htruthy.
Qed.

Lemma saved_entries_decodes json_loads (l : list RawSample) :
  Forall (decodes json_loads) l ->
  map (fun e => rec_created_at e.2) (saved_entries json_loads l) = map created_at l
  /\ map fst (saved_entries json_loads l) = map timestamp_key l
  /\ forall n, save_outcome json_loads l n = Ok (n + length l).
Proof.
  induction 1 as [|x l [r Hr] _ (IH1 & IH2 & IH3)].
  - cbn. repeat split. intros n. f_equal. lia.
  - cbn. rewrite Hr. cbn. rewrite IH1, IH2. repeat split.
    + f_equal. unfold sensor_record in Hr.
      destruct (json_loads (value x)); [|discriminate].
      destruct (field j "temperature"); try discriminate.
      destruct (field j "humidity"); try discriminate.
      destruct (field j "soil"); try discriminate.
      now inversion Hr.
    + intros n. rewrite IH3. f_equal. lia.
Qed.

(** C1. In incremental mode, with watermark [T] in the store and [page] the
    newest page, the run writes exactly the entries of the longest prefix
    of [page] whose samples are strictly newer than [T]: the scan stops at
    the first sample with [created_at <= T].  For a page
    [[s3; s2; s1; s0; sm]] with [s3], [s2], [s1] newer than [T] and [s0] at
    [T], the prefix is [[s3; s2; s1]]; when no sample of the page is newer
    than [T], nothing is written and the store is unchanged. *)
Theorem incremental_boundary source json_loads fuel w T page :
  latest_created_at (sensor_data w) = Some T ->
  PyStr.truthy T = true ->
  source (length (fetches w)) newest_page = Json {| data := Some page |} ->
  exists newer rest,
    page = newer ++ rest
    /\ Forall (newer_than T) newer
    /\ match rest with
       | [] => True
       | sample :: _ => PyStr.le (created_at sample) T = true
       end
    /\ (forall p, p `prefix_of` page -> Forall (newer_than T) p ->
                  p `prefix_of` newer)
    /\ new_writes (main source json_loads fuel) w = saved_entries json_loads newer
    /\ sensor_data (exec (main source json_loads fuel) w) =
       put_all (saved_entries json_loads newer) (sensor_data w)
    /\ (Forall (decodes json_loads) newer ->
        result (main source json_loads fuel) w = Ok tt
        /\ map (fun e => rec_created_at e.2) (saved_entries json_loads newer)
           = map created_at newer
        /\ map fst (saved_entries json_loads newer) = map timestamp_key newer)
    /\ (forall s3 s2 s1 s0 sm,
          page = [s3; s2; s1; s0; sm] ->
          newer_than T s3 -> newer_than T s2 -> newer_than T s1 ->
          created_at s0 = T ->
          newer = [s3; s2; s1])
    /\ (Forall (fun sample => PyStr.lt T (created_at sample) = false) page ->
        new_writes (main source json_loads fuel) w = []
        /\ sensor_data (exec (main source json_loads fuel) w) = sensor_data w).
Proof.
  intros Hlatest Htruthy Hreply.
  destruct (scan_new_split T page []) as (newer & rest & Hpage & Hnewer & Hrest & Hscan).
  cbn in Hscan.
  assert (Hrun : main source json_loads fuel w =
                 (unit_of (save_outcome json_loads newer 0),
                  stored (saved_entries json_loads newer)
                         (served source newest_page w))).
  { rewrite (main_incremental _ _ _ T), (incremental_run _ _ _ page), Hscan; auto. }
  assert (Hwrites : new_writes (main source json_loads fuel) w =
                    saved_entries json_loads newer).
  { unfold new_writes, exec. rewrite Hrun. cbn. apply drop_app_length. }
  assert (Hstore : sensor_data (exec (main source json_loads fuel) w) =
                   put_all (saved_entries json_loads newer) (sensor_data w)).
  { unfold exec. now rewrite Hrun. }
  exists newer, rest. split; [exact Hpage|]. split; [exact Hnewer|].
  split; [exact Hrest|]. split; [|split; [exact Hwrites|split; [exact Hstore|]]].
  { intros p Hp Hall. rewrite Hpage in Hp.
    eapply newer_prefix_longest; eauto. }
  split; [|split].
  - intros Hdec. apply saved_entries_decodes in Hdec as (H1 & H2 & H3).
    unfold result. rewrite Hrun. cbn. rewrite H3. auto.
  - intros s3 s2 s1 s0 sm -> H3 H2 H1 H0.
    assert (Hp : [s3; s2; s1] `prefix_of` newer).
    { apply (newer_prefix_longest T newer rest); [exact Hrest| |].
      - rewrite <- Hpage. now exists [s0; sm].
      - repeat constructor; assumption. }
    destruct Hp as [tl ->].
    destruct tl as [|x tl]; [reflexivity|]. exfalso.
    cbn in Hpage. injection Hpage as Hx _.
    apply Forall_app in Hnewer as [_ Hx']. apply Forall_cons_1 in Hx' as [Hx' _].
    unfold newer_than in Hx'. rewrite <- Hx, H0, PyStrFacts.lt_irrefl in Hx'.
    discriminate.
  - intros Hnone. rewrite Hwrites, Hstore.
    destruct newer as [|x newer]; [split; reflexivity|]. exfalso.
    apply Forall_cons_1 in Hnewer as [Hx _]. rewrite Hpage in Hnone.
    apply Forall_cons_1 in Hnone as [Hx' _].
    unfold newer_than in Hx. congruence.
Qed.

(** ** Mode A: one iteration of the loop *)

Lemma filter_same_length {A} (f : A -> bool) (l : list A) :
  length (List.filter f l) = length l -> List.filter f l = l.
Proof.
  induction l as [|x l IH]; [reflexivity|]. cbn.
  destruct (f x); cbn; intros H.
  - f_equal. apply IH. lia.
  - pose proof (List.filter_length_le f l). lia.
Qed.

Lemma not_floor_truthy c :
  PyStr.le c EARLIEST_DATE = false -> PyStr.truthy c = true.
Proof. destruct c; [discriminate|reflexivity]. Qed.

Lemma loop_body_iteration source st w :
  iteration source st w (fst (loop_body source st w)) (snd (loop_body source st w)).
Proof.
  unfold loop_body.
  destruct (last (all_data st)) as [oldest|] eqn:Hlast.
  2:{ apply last_None in Hlast. rewrite Hlast. cbn. now constructor. }
  assert (Hc : cursor st = Some (created_at oldest)).
  { unfold cursor. now rewrite Hlast. }
  cbv zeta. set (c := created_at oldest) in *.
  fold (repeats st c). fold (next_stuck_count st c).
  destruct (repeats st c && (2 <=? next_stuck_count st c)%nat) eqn:Hexit.
  { apply andb_true_iff in Hexit as [Hrep Hcnt]. apply Nat.leb_le in Hcnt.
    unfold next_stuck_count in Hcnt. rewrite Hrep in Hcnt.
    cbn. eapply it_stuck; eauto. lia. }
  assert (Hns : repeats st c = false \/ stuck_count st = 0).
  { apply andb_false_iff in Hexit as [Hrep|Hcnt]; [now left|].
    apply Nat.leb_gt in Hcnt. unfold next_stuck_count in Hcnt.
    destruct (repeats st c); [right; lia|now left]. }
  clear Hexit.
  destruct (PyStr.le c EARLIEST_DATE) eqn:Hfloor.
  { cbn. eapply it_floor; eauto. }
  assert (Hlt : PyStr.lt EARLIEST_DATE c = true).
  { now rewrite PyStrFacts.lt_not_le, Hfloor. }
  unfold bind. rewrite fetch_batch_run.
  replace (params_of (Some c)) with (page_before c)
    by (unfold params_of, page_before; now rewrite (not_floor_truthy c Hfloor)).
  destruct (source (length (fetches w)) (page_before c)) as [|response] eqn:Hsrc.
  { cbn. eapply it_unavailable; eauto. }
  destruct response as [[page|]]; cbn [data].
  2:{ cbn. eapply it_no_more; eauto. }
  destruct page as [|x page'].
  { cbn. eapply it_no_more; eauto. }
  remember (x :: page') as page eqn:Hpage.
  assert (Hne : page <> []) by (subst page; discriminate).
  destruct (List.filter (in_range c) page) as [|y batch] eqn:Hf.
  { cbn. eapply it_no_new; eauto. }
  rewrite <- Hf.
  destruct (length (List.filter (in_range c) page) <? length page)%nat eqn:Hcut.
  { apply Nat.ltb_lt in Hcut. cbn. eapply it_cut_short; eauto.
    rewrite Hf. discriminate. }
  apply Nat.ltb_ge in Hcut.
  assert (Hsame : List.filter (in_range c) page = page).
  { apply filter_same_length. pose proof (List.filter_length_le (in_range c) page). lia. }
  rewrite Hsame.
  destruct (1000 <? batch_count st + 1)%nat eqn:Hsafe.
  { apply Nat.ltb_lt in Hsafe. cbn. eapply it_safety; eauto. }
  apply Nat.ltb_ge in Hsafe. cbn. eapply it_continue; eauto.
Qed.

Lemma loop_body_inv source st w r w' :
  loop_body source st w = (r, w') -> iteration source st w r w'.
Proof.
  intros H. pose proof (loop_body_iteration source st w) as Hit.
  now rewrite H in Hit.
Qed.

(** ** Mode A: the loop *)

(** Invariant rule for [while True]: [P] is kept by the iterations that
    continue, [Q] holds of whatever leaves the loop. *)
Lemma while_True_rule source (P : LoopState -> World -> Prop)
  (Q : Res (Exit * list RawSample) -> World -> Prop) :
  (forall st w r w', P st w -> iteration source st w r w' ->
     match r with
     | Ok (Continue st') => P st' w'
     | Ok (Break why l) => Q (Ok (why, l)) w'
     | Raise e => Q (Raise e) w'
     | OutOfFuel => True
     end) ->
  forall fuel st w r w',
    P st w -> while_True source fuel st w = (r, w') ->
    r = OutOfFuel \/ Q r w'.
Proof.
  intros Hstep. induction fuel as [|fuel IH]; intros st w r w' HP Hrun.
  - cbn in Hrun. injection Hrun as <- _. now left.
  - cbn [while_True] in Hrun. unfold bind in Hrun.
    destruct (loop_body source st w) as [r1 w1] eqn:Hbody.
    apply loop_body_inv in Hbody. specialize (Hstep _ _ _ _ HP Hbody).
    destruct r1 as [[why l|st']| |]; cbn in Hstep.
    + injection Hrun as <- <-. now right.
    + exact (IH _ _ _ _ Hstep Hrun).
    + injection Hrun as <- <-. now right.
    + injection Hrun as <- <-. now left.
Qed.

(** An iteration that continues has counted one more batch, and the count
    is still within the safety limit. *)
Lemma continue_counts source st w st' w' :
  loop_body source st w = (Ok (Continue st'), w') ->
  batch_count st' = batch_count st + 1 /\ batch_count st' <= 1000.
Proof.
  intros H. apply loop_body_inv in H. inversion H; subst. cbn. lia.
Qed.

Lemma loop_body_no_timeout source st w : fst (loop_body source st w) <> OutOfFuel.
Proof.
  pose proof (loop_body_iteration source st w) as H.
  destruct (loop_body source st w) as [r w']. cbn in *.
  inversion H; discriminate.
Qed.

Lemma while_True_terminates source fuel st w :
  1000 <= fuel + batch_count st ->
  fst (while_True source (S fuel) st w) <> OutOfFuel.
Proof.
  revert st w. induction fuel as [|fuel IH]; intros st w Hfuel.
  - cbn [while_True]. unfold bind.
    pose proof (loop_body_no_timeout source st w) as Hno.
    destruct (loop_body source st w) as [r w'] eqn:Hbody. cbn in Hno.
    destruct r as [[why l|st']| |]; try (cbn; congruence).
    apply continue_counts in Hbody. lia.
  - cbn [while_True]. unfold bind.
    pose proof (loop_body_no_timeout source st w) as Hno.
    destruct (loop_body source st w) as [r w'] eqn:Hbody. cbn in Hno.
    destruct r as [[why l|st']| |]; try (cbn; congruence).
    apply continue_counts in Hbody. apply IH. lia.
Qed.

(** More fuel does not change the outcome of a loop that ended. *)
Lemma while_True_more_fuel source fuel fuel' st w :
  fst (while_True source fuel st w) <> OutOfFuel ->
  fuel <= fuel' ->
  while_True source fuel' st w = while_True source fuel st w.
Proof.
  revert fuel' st w. induction fuel as [|fuel IH]; intros fuel' st w Hend Hle.
  - cbn in Hend. congruence.
  - destruct fuel' as [|fuel']; [lia|].
    cbn [while_True] in *. unfold bind in *.
    destruct (loop_body source st w) as [r w'].
    destruct r as [[why l|st']| |]; try reflexivity.
    apply IH; [assumption|lia].
Qed.

Lemma while_True_enough source fuel st w :
  1000 <= fuel -> 1 <= batch_count st ->
  fst (while_True source fuel st w) <> OutOfFuel
  /\ while_True source fuel st w = while_True source 1000 st w.
Proof.
  intros Hfuel Hbc.
  assert (H1000 : fst (while_True source 1000 st w) <> OutOfFuel).
  { apply (while_True_terminates source 999). lia. }
  rewrite (while_True_more_fuel source 1000 fuel); auto.
Qed.

Lemma download_all_data_exit_run source fuel w :
  download_all_data_exit source fuel w =
  match source (length (fetches w)) newest_page with
  | Unavailable => (Raise RequestError, served source newest_page w)
  | Json {| data := None |} => (Ok (None, []), served source newest_page w)
  | Json {| data := Some page |} =>
      (tag_exit (fst (while_True source fuel (start page)
                        (served source newest_page w))),
       snd (while_True source fuel (start page) (served source newest_page w)))
  end.
Proof.
  unfold download_all_data_exit, bind at 1. rewrite fetch_batch_run.
  change (params_of None) with newest_page.
  destruct (source (length (fetches w)) newest_page) as [|[[page|]]];
    try reflexivity.
  cbn [data app]. fold (start page). unfold bind.
  destruct (while_True source fuel (start page) (served source newest_page w))
    as [[out| |] w']; reflexivity.
Qed.

Lemma download_all_data_run source fuel w :
  download_all_data source fuel w =
  (untag (fst (download_all_data_exit source fuel w)),
   snd (download_all_data_exit source fuel w)).
Proof.
  unfold download_all_data, bind.
  destruct (download_all_data_exit source fuel w) as [[out| |] w']; reflexivity.
Qed.

Lemma frame_served source params w0 w log :
  frame w0 w log ->
  frame w0 (served source params w)
    (log ++ [(params, source (length (fetches w)) params)]).
Proof.
  intros (Hf & Hw & Hs). unfold frame, served. cbn.
  rewrite Hf at 1. now rewrite <- app_assoc.
Qed.

Lemma frame_start source params w :
  frame w (served source params w)
    [(params, source (length (fetches w)) params)].
Proof. unfold frame, served. cbn. auto. Qed.

Lemma loop_fetch_count source w0 fuel st w r w' log :
  frame w0 w log -> length log = batch_count st -> batch_count st <= 1000 ->
  while_True source fuel st w = (r, w') ->
  r = OutOfFuel \/
  exists log', frame w0 w' log' /\ length log' <= 1001.
Proof.
  intros Hframe Hlen Hbc Hrun.
  apply (while_True_rule source
    (fun st w => exists log, frame w0 w log /\ length log = batch_count st
                             /\ batch_count st <= 1000)
    (fun _ w' => exists log', frame w0 w' log' /\ length log' <= 1001)
    ) with (fuel := fuel) (st := st) (w := w); [|eauto|exact Hrun].
  clear. intros st w r w' (log & Hframe & Hlen & Hbc) Hit.
  destruct Hit;
    try (exists log; split; [assumption|lia]);
    try (eexists; split; [apply frame_served; eassumption|];
         rewrite length_app; cbn; lia).
Qed.

Lemma download_exit_enough source fuel w :
  1000 <= fuel ->
  download_all_data_exit source fuel w = download_all_data_exit source 1000 w
  /\ fst (download_all_data_exit source 1000 w) <> OutOfFuel.
Proof.
  intros Hfuel. split.
  - rewrite !download_all_data_exit_run.
    destruct (source (length (fetches w)) newest_page) as [|[[page|]]];
      try reflexivity.
    destruct (while_True_enough source fuel (start page)
                (served source newest_page w)) as [_ ->]; cbn; auto.
  - rewrite download_all_data_exit_run.
    destruct (source (length (fetches w)) newest_page) as [|[[page|]]];
      try (cbn; congruence).
    pose proof (while_True_terminates source 999 (start page)
                  (served source newest_page w)) as H.
    cbn [fst]. intros Hout. apply H; [cbn; lia|].
    destruct (fst (while_True source 1000 (start page) _));
      cbn in Hout; congruence.
Qed.

Lemma download_ends source fuel w :
  1000 <= fuel -> result (download_all_data source fuel) w <> OutOfFuel.
Proof.
  intros Hfuel.
  destruct (download_exit_enough source fuel w Hfuel) as [Hsame Hend].
  unfold result. rewrite download_all_data_run, Hsame. cbn [fst].
  destruct (fst (download_all_data_exit source 1000 w)); cbn; congruence.
Qed.

(** C6. The pagination loop of Mode A ends whatever the source does: an
    iteration that does not break has incremented the batch counter, which
    stays within 1000, so that 1000 unfoldings of the loop always reach a
    [break] or an exception, no more than 1000 paged fetches follow the
    initial one, and more unfoldings change nothing. *)
Theorem safety_valve_terminates source fuel w :
  1000 <= fuel ->
  result (download_all_data source fuel) w <> OutOfFuel
  /\ download_all_data source fuel w = download_all_data source 1000 w
  /\ length (new_fetches (download_all_data source fuel) w) <= 1 + 1000
  /\ (forall page w1,
        fst (while_True source 1000 (start page) w1) <> OutOfFuel)
  /\ (forall st w1 st' w1',
        loop_body source st w1 = (Ok (Continue st'), w1') ->
        batch_count st' = batch_count st + 1 /\ batch_count st' <= 1000).
Proof.
  intros Hfuel.
  destruct (download_exit_enough source fuel w Hfuel) as [Hsame Hend].
  split; [|split; [|split; [|split]]].
  - now apply download_ends.
  - now rewrite !download_all_data_run, Hsame.
  - unfold new_fetches, exec. rewrite download_all_data_run, Hsame. cbn [snd].
    rewrite download_all_data_exit_run. rewrite download_all_data_exit_run in Hend.
    destruct (source (length (fetches w)) newest_page) as [|[[page|]]] eqn:Hsrc;
      try (cbn; rewrite drop_app_length; cbn; lia).
    cbn [fst snd] in *.
    destruct (while_True source 1000 (start page) (served source newest_page w))
      as [r w'] eqn:Hrun.
    pose proof (frame_start source newest_page w) as Hframe.
    eapply loop_fetch_count in Hrun as [->|(log' & (Hf & _) & Hlen)];
      [now cbn in Hend| |exact Hframe|reflexivity|cbn; lia].
    cbn [snd]. rewrite Hf, drop_app_length. lia.
  - intros page w1. apply (while_True_terminates source 999). cbn. lia.
  - apply continue_counts.
Qed.

(** ** The cursor moves strictly backward *)

Lemma advancing_start page : advancing (start page).
Proof. split; [reflexivity|]. cbn. discriminate. Qed.

Lemma advancing_no_repeat st c :
  advancing st -> cursor st = Some c -> repeats st c = false.
Proof.
  intros [_ Hprev] Hc. unfold repeats.
  destruct (previous_oldest st) as [p|]; [|reflexivity].
  destruct (Hprev p eq_refl) as (c' & Hc' & Hlt).
  rewrite Hc in Hc'. injection Hc' as <-.
  destruct (PyStr.eq c p) eqn:Heq; [|reflexivity].
  apply PyStrFacts.eq_true in Heq. subst p.
  rewrite PyStrFacts.lt_irrefl in Hlt. discriminate.
Qed.

Lemma in_range_all c (page : list RawSample) x :
  List.filter (in_range c) page = page -> In x page ->
  PyStr.le EARLIEST_DATE (created_at x) = true
  /\ PyStr.lt (created_at x) c = true.
Proof.
  intros Hf Hx. rewrite <- Hf in Hx. apply List.filter_In in Hx as [_ Hx].
  unfold in_range in Hx. now apply andb_true_iff in Hx.
Qed.

Lemma last_In {A} (l : list A) x : last l = Some x -> In x l.
Proof.
  intros H. apply last_Some in H as [l' ->]. apply in_or_app. right. now left.
Qed.

Lemma cursor_app st (page : list RawSample) :
  page <> [] ->
  exists x, last page = Some x /\ last (all_data st ++ page) = Some x.
Proof.
  intros Hne. destruct (last page) as [x|] eqn:Hlast.
  - exists x. split; [reflexivity|]. rewrite last_app, Hlast. reflexivity.
  - now apply last_None in Hlast.
Qed.

Lemma advancing_continue source st w st' w' :
  advancing st ->
  iteration source st w (Ok (Continue st')) w' ->
  advancing st'
  /\ exists c c', cursor st = Some c /\ cursor st' = Some c'
                  /\ PyStr.lt c' c = true /\ previous_oldest st' = Some c.
Proof.
  intros Hadv Hit. inversion Hit as [| | | | | | | |c page Hc Hns Hlt Hsrc Hne Hf Hbc];
    subst.
  destruct (cursor_app st page Hne) as (x & Hx & Hlast).
  destruct (in_range_all c page x Hf (last_In _ _ Hx)) as [_ Hxc].
  assert (Hc' : cursor {| all_data := all_data st ++ page;
                          previous_oldest := Some c;
                          batch_count := batch_count st + 1;
                          stuck_count := next_stuck_count st c |}
                = Some (created_at x)).
  { unfold cursor. cbn [all_data]. now rewrite Hlast. }
  split.
  - split.
    + cbn. unfold next_stuck_count. now rewrite (advancing_no_repeat st c).
    + cbn [previous_oldest]. intros p [= <-]. eauto.
  - exists c, (created_at x). auto.
Qed.

Lemma advancing_never_stuck source st w l w' :
  advancing st -> ~ iteration source st w (Ok (Break Stuck l)) w'.
Proof.
  intros Hadv Hit. inversion Hit as [|c Hc Hrep Hcnt| | | | | | |]; subst.
  rewrite (advancing_no_repeat st c) in Hrep; [discriminate|assumption..].
Qed.

Lemma reaches_advancing source st0 w0 st w :
  advancing st0 -> reaches source st0 w0 st w -> advancing st.
Proof.
  intros H0. induction 1 as [|st1 w1 st2 w2 _ IH Hbody]; [assumption|].
  apply loop_body_inv in Hbody.
  now apply (advancing_continue source st1 w1 st2 w2).
Qed.

Lemma while_True_never_stuck source fuel st w l w' :
  advancing st -> while_True source fuel st w <> (Ok (Stuck, l), w').
Proof.
  intros Hadv Hrun.
  apply (while_True_rule source (fun st _ => advancing st)
           (fun r _ => forall l, r <> Ok (Stuck, l)))
    in Hrun as [Hr|Hr]; [discriminate|now apply (Hr l)| |assumption].
  clear. intros st w r w' Hadv Hit.
  destruct r as [[why l|st']| |]; [| |discriminate|exact I].
  - intros l' [= -> <-]. now apply advancing_never_stuck in Hit.
  - now apply advancing_continue in Hit.
Qed.

(** C9. In every state the loop of Mode A goes through, the stuck counter
    is 0 and the cursor is strictly below the previous one; an iteration
    that continues leaves a cursor strictly below its own, which becomes the
    previous one; the iteration never leaves through the stuck branch, and
    neither does a whole download. *)
Theorem cursor_strictly_decreases source page w0 st w :
  reaches source (start page) w0 st w ->
  stuck_count st = 0
  /\ (forall p, previous_oldest st = Some p ->
        exists c, cursor st = Some c /\ PyStr.lt c p = true /\ c <> p)
  /\ (forall st' w',
        loop_body source st w = (Ok (Continue st'), w') ->
        exists c c', cursor st = Some c /\ cursor st' = Some c'
                     /\ PyStr.lt c' c = true /\ c' <> c
                     /\ previous_oldest st' = Some c
                     /\ stuck_count st' = 0)
  /\ (forall l w', loop_body source st w <> (Ok (Break Stuck l), w'))
  /\ (forall fuel l w1 w2,
        download_all_data_exit source fuel w1 <> (Ok (Some Stuck, l), w2)).
Proof.
  intros Hreach.
  pose proof (reaches_advancing _ _ _ _ _ (advancing_start page) Hreach) as Hadv.
  split; [apply Hadv|]. split; [|split; [|split]].
  - intros p Hp. destruct Hadv as [_ Hprev].
    destruct (Hprev p Hp) as (c & Hc & Hlt).
    exists c. repeat split; auto. now apply PyStrFacts.lt_neq.
  - intros st' w' Hbody. apply loop_body_inv in Hbody.
    destruct (advancing_continue _ _ _ _ _ Hadv Hbody)
      as ([Hcnt _] & c & c' & Hc & Hc' & Hlt & Hprev).
    exists c, c'. repeat split; auto. now apply PyStrFacts.lt_neq.
  - intros l w' Hbody. apply loop_body_inv in Hbody.
    now apply advancing_never_stuck in Hbody.
  - intros fuel l w1 w2. rewrite download_all_data_exit_run.
    destruct (source (length (fetches w1)) newest_page) as [|[[page1|]]];
      try discriminate.
    destruct (while_True source fuel (start page1) (served source newest_page w1))
      as [r w'] eqn:Hrun.
    destruct r as [[why l']| |]; cbn; try discriminate.
    intros [= -> <- <-].
    exact (while_True_never_stuck source fuel (start page1) _ l' w'
             (advancing_start page1) Hrun).
Qed.

(** ** What a download does to the world *)

Lemma frame_refl w : frame w w [].
Proof. unfold frame. now rewrite app_nil_r. Qed.

Lemma frame_trans w0 w1 w2 log1 log2 :
  frame w0 w1 log1 -> frame w1 w2 log2 -> frame w0 w2 (log1 ++ log2).
Proof.
  intros (Hf1 & Hw1 & Hs1) (Hf2 & Hw2 & Hs2). unfold frame.
  rewrite Hf2, Hf1, Hw2, Hw1, Hs2, Hs1. now rewrite app_assoc.
Qed.

Lemma iteration_frame source st w r w' :
  iteration source st w r w' -> exists log, frame w w' log.
Proof.
  intros Hit.
  destruct Hit; try (eexists; apply frame_refl);
    eexists; apply frame_start.
Qed.

Lemma while_True_frame source fuel st w :
  exists log, frame w (snd (while_True source fuel st w)) log.
Proof.
  revert st w. induction fuel as [|fuel IH]; intros st w.
  - cbn. exists []. apply frame_refl.
  - cbn [while_True]. unfold bind.
    destruct (iteration_frame _ _ _ _ _ (loop_body_iteration source st w))
      as [log1 H1].
    destruct (loop_body source st w) as [r w1]. cbn [snd] in H1.
    destruct r as [[why l|st']| |]; cbn [snd]; eauto.
    destruct (IH st' w1) as [log2 H2].
    exists (log1 ++ log2). eapply frame_trans; eauto.
Qed.

Lemma download_frame source fuel w :
  exists log, frame w (exec (download_all_data source fuel) w) log.
Proof.
  unfold exec. rewrite download_all_data_run. cbn [snd].
  rewrite download_all_data_exit_run.
  destruct (source (length (fetches w)) newest_page) as [|[[page|]]] eqn:Hsrc;
    try (eexists; apply frame_start).
  cbn [snd].
  destruct (while_True_frame source fuel (start page)
              (served source newest_page w)) as [log Hlog].
  eexists. eapply frame_trans; [apply frame_start|exact Hlog].
Qed.

Lemma full_download_run source json_loads fuel w :
  full_download source json_loads fuel w =
  match download_all_data source fuel w with
  | (Ok l, w1) =>
      (unit_of (save_outcome json_loads l 0),
       stored (saved_entries json_loads l) w1)
  | (Raise e, w1) => (Raise e, w1)
  | (OutOfFuel, w1) => (OutOfFuel, w1)
  end.
Proof.
  unfold full_download, bind at 1.
  destruct (download_all_data source fuel w) as [[l| |] w1]; try reflexivity.
  apply save_if_any_run.
Qed.

Lemma main_full_download source json_loads fuel w :
  is_truthy (latest_created_at (sensor_data w)) = false ->
  main source json_loads fuel w = full_download source json_loads fuel w.
Proof.
  intros Hmode. unfold main, bind at 1, get_latest_timestamp_from_firebase.
  destruct (latest_created_at (sensor_data w)) as [t|]; [|reflexivity].
  cbn in Hmode. now rewrite Hmode.
Qed.

(** The writes of a full download are the entries saved for the list that
    [download_all_data] returned. *)
Lemma full_download_writes source json_loads fuel w :
  new_writes (full_download source json_loads fuel) w =
  match result (download_all_data source fuel) w with
  | Ok l => saved_entries json_loads l
  | _ => []
  end.
Proof.
  unfold new_writes, exec, result. rewrite full_download_run.
  destruct (download_frame source fuel w) as [log (_ & Hw & _)].
  unfold exec in Hw.
  destruct (download_all_data source fuel w) as [[l| |] w1]; cbn in *.
  - rewrite Hw. apply drop_app_length.
  - rewrite Hw. apply drop_all.
  - rewrite Hw. apply drop_all.
Qed.

Lemma saved_entries_In json_loads (l : list RawSample) key record :
  In (key, record) (saved_entries json_loads l) ->
  exists sample, In sample l
    /\ key = timestamp_key sample
    /\ rec_created_at record = created_at sample
    /\ sensor_record json_loads sample = Ok record.
Proof.
  induction l as [|x l IH]; cbn; [tauto|].
  destruct (sensor_record json_loads x) as [r| |] eqn:Hr; cbn; try tauto.
  intros [[= <- <-]|Hin].
  - exists x. repeat split; auto.
    unfold sensor_record in Hr.
    destruct (json_loads (value x)); [|discriminate].
    destruct (field j "temperature"); try discriminate.
    destruct (field j "humidity"); try discriminate.
    destruct (field j "soil"); try discriminate.
    now inversion Hr.
  - destruct (IH Hin) as (s & Hs & Hrest). exists s. auto.
Qed.

(** ** Mode A: the date floor *)

Lemma descending_last (page : list RawSample) x y :
  descending page = true -> last page = Some x -> In y page ->
  PyStr.le (created_at x) (created_at y) = true.
Proof.
  revert y. induction page as [|a page IH]; intros y; [intros _ [=]|].
  destruct page as [|b page].
  - cbn. intros _ [= <-] [<-|[]]. apply PyStrFacts.le_refl.
  - intros Hd Hlast Hin. cbn [descending] in Hd.
    apply andb_true_iff in Hd as [Hba Hd].
    rewrite last_cons_cons in Hlast.
    destruct Hin as [<-|Hin]; [|now apply IH].
    apply (PyStrFacts.le_trans _ (created_at b)); [|exact Hba].
    apply IH; auto. now left.
Qed.

Lemma floor_checked st c :
  floor_inv st -> cursor st = Some c -> PyStr.lt EARLIEST_DATE c = true ->
  Forall on_or_after_floor (all_data st).
Proof.
  intros [[_ Hd]|H] Hc Hlt; [|exact H].
  unfold cursor in Hc. destruct (last (all_data st)) as [x|] eqn:Hlast;
    [|discriminate]. injection Hc as <-.
  apply Forall_forall. intros y Hy. apply list_elem_of_In in Hy.
  unfold on_or_after_floor.
  apply (PyStrFacts.le_trans _ (created_at x)).
  - now apply PyStrFacts.lt_le.
  - now apply (descending_last (all_data st)).
Qed.

Lemma in_range_floor c (page : list RawSample) :
  Forall on_or_after_floor (List.filter (in_range c) page).
Proof.
  apply Forall_forall. intros y Hy. apply list_elem_of_In in Hy.
  apply List.filter_In in Hy as [_ Hy]. unfold in_range in Hy.
  now apply andb_true_iff in Hy as [Hy _].
Qed.

Lemma filter_floor (l : list RawSample) :
  Forall on_or_after_floor (List.filter not_before_earliest l).
Proof.
  apply Forall_forall. intros y Hy. apply list_elem_of_In in Hy.
  now apply List.filter_In in Hy as [_ Hy].
Qed.

Lemma floor_step source st w r w' :
  floor_inv st -> iteration source st w r w' ->
  match r with
  | Ok (Continue st') => floor_inv st'
  | Ok (Break why l) => Forall on_or_after_floor l
  | _ => True
  end.
Proof.
  intros Hinv Hit. destruct Hit; try exact I.
  - constructor.
  - destruct Hinv as [[Hprev _]|Hall]; [|exact Hall].
    unfold repeats in *. rewrite Hprev in *. discriminate.
  - apply filter_floor.
  - eapply floor_checked; eauto.
  - eapply floor_checked; eauto.
  - apply Forall_app. split; [eapply floor_checked; eauto|apply in_range_floor].
  - apply Forall_app. split; [eapply floor_checked; eauto|].
    match goal with Hf : List.filter _ page = page |- _ => rewrite <- Hf end.
    apply in_range_floor.
  - right. cbn [all_data]. apply Forall_app.
    split; [eapply floor_checked; eauto|].
    match goal with Hf : List.filter _ page = page |- _ => rewrite <- Hf end.
    apply in_range_floor.
Qed.

Lemma download_floor source fuel w l w' :
  pages_descending source ->
  download_all_data source fuel w = (Ok l, w') ->
  Forall on_or_after_floor l.
Proof.
  intros Hdesc. rewrite download_all_data_run, download_all_data_exit_run.
  destruct (source (length (fetches w)) newest_page) as [|[[page|]]] eqn:Hsrc;
    cbn; try discriminate.
  2:{ intros [= <- _]. constructor. }
  destruct (while_True source fuel (start page) (served source newest_page w))
    as [r w1] eqn:Hrun.
  apply (while_True_rule source (fun st _ => floor_inv st)
           (fun r _ => forall out, r = Ok out -> Forall on_or_after_floor (snd out)))
    in Hrun.
  - destruct Hrun as [->|Hr]; [discriminate|].
    destruct r as [out| |]; cbn; try discriminate.
    intros [= <- _]. now apply Hr.
  - clear. intros st w r w' Hinv Hit.
    pose proof (floor_step _ _ _ _ _ Hinv Hit) as H.
    destruct r as [[why l|st']| |]; auto; try discriminate.
    intros out [= <-]. exact H.
  - left. split; [reflexivity|]. cbn. eapply Hdesc; eauto.
Qed.

(** C2. Against a source whose pages are ordered descending by
    [created_at], a run in Mode A ends, every sample [download_all_data]
    returns is on or after [EARLIEST_DATE], and so is every record the run
    writes, those of the initial page included. *)
Theorem date_floor source json_loads fuel w :
  pages_descending source ->
  is_truthy (latest_created_at (sensor_data w)) = false ->
  1000 <= fuel ->
  result (main source json_loads fuel) w <> OutOfFuel
  /\ (forall l w', download_all_data source fuel w = (Ok l, w') ->
        Forall on_or_after_floor l)
  /\ (forall key record,
        In (key, record) (new_writes (main source json_loads fuel) w) ->
        PyStr.le EARLIEST_DATE (rec_created_at record) = true
        /\ PyStr.lt (rec_created_at record) EARLIEST_DATE = false).
Proof.
  intros Hdesc Hmode Hfuel.
  pose proof (main_full_download source json_loads fuel w Hmode) as Hmain.
  assert (Hres : result (main source json_loads fuel) w =
                 result (full_download source json_loads fuel) w)
    by (unfold result; now rewrite Hmain).
  assert (Hwr : new_writes (main source json_loads fuel) w =
                new_writes (full_download source json_loads fuel) w)
    by (unfold new_writes, exec; now rewrite Hmain).
  rewrite Hres, Hwr. clear Hmain Hres Hwr.
  split; [|split].
  - unfold result. rewrite full_download_run.
    pose proof (download_ends source fuel w Hfuel) as Hend.
    unfold result in Hend.
    destruct (download_all_data source fuel w) as [[l| |] w1]; cbn in *;
      try congruence.
    clear. generalize 0. induction l as [|x l IH]; intros n; cbn; [discriminate|].
    destruct (sensor_record json_loads x) as [r| |] eqn:Hr; cbn;
      try discriminate; [apply IH|].
    unfold sensor_record in Hr.
    destruct (json_loads (value x)); [|discriminate].
    destruct j; cbn in Hr; try discriminate.
    destruct (dict_get items "temperature"); [|discriminate].
    destruct (dict_get items "humidity"); [|discriminate].
    destruct (dict_get items "soil"); discriminate.
  - intros l w'. now apply download_floor.
  - intros key record Hin. rewrite full_download_writes in Hin.
    unfold result in Hin.
    destruct (download_all_data source fuel w) as [[l| |] w1] eqn:Hrun;
      cbn in Hin; try tauto.
    apply saved_entries_In in Hin as (s & Hs & _ & Hrec & _).
    pose proof (download_floor _ _ _ _ _ Hdesc Hrun) as Hall.
    rewrite Forall_forall in Hall. specialize (Hall s).
    rewrite list_elem_of_In in Hall. specialize (Hall Hs).
    unfold on_or_after_floor in Hall. rewrite Hrec.
    split; [exact Hall|]. now rewrite PyStrFacts.lt_not_le, Hall.
Qed.

(** ** Mode A twice *)

Lemma put_all_cons e es m :
  put_all (e :: es) m = put_all es (<[e.1 := e.2]> m).
Proof. reflexivity. Qed.

Lemma put_all_lookup (es : list (string * SensorRecord)) k :
  (k ∈ es.*1 -> forall m m' : gmap string SensorRecord,
     put_all es m !! k = put_all es m' !! k)
  /\ (k ∉ es.*1 -> forall m : gmap string SensorRecord,
        put_all es m !! k = m !! k).
Proof.
  induction es as [|e es [IH1 IH2]].
  - split; [intros Hin; now apply elem_of_nil in Hin|reflexivity].
  - split.
    + intros Hin m m'. rewrite !put_all_cons.
      destruct (decide (k ∈ es.*1)) as [Hk|Hk]; [now apply IH1|].
      rewrite fmap_cons in Hin. apply elem_of_cons in Hin as [->|Hin]; [|tauto].
      rewrite !IH2 by assumption. now rewrite !lookup_insert_eq.
    + intros Hnot m. rewrite fmap_cons in Hnot.
      apply not_elem_of_cons in Hnot as [Hne Hnot].
      rewrite put_all_cons, IH2 by assumption.
      now apply lookup_insert_ne.
Qed.

(** Writing the same entries a second time changes nothing. *)
Lemma put_all_twice es (m : gmap string SensorRecord) :
  put_all es (put_all es m) = put_all es m.
Proof.
  apply map_eq. intros k. destruct (put_all_lookup es k) as [H1 H2].
  destruct (decide (k ∈ es.*1)) as [Hk|Hk].
  - apply H1, Hk.
  - now rewrite (H2 Hk).
Qed.

Lemma loop_body_unchanging source st w w' :
  unchanging source ->
  fst (loop_body source st w) = fst (loop_body source st w').
Proof.
  intros Hsame. unfold loop_body.
  destruct (last (all_data st)) as [oldest|]; [|reflexivity]. cbv zeta.
  destruct (_ && _); [reflexivity|].
  destruct (PyStr.le _ _); [reflexivity|].
  unfold bind. rewrite !fetch_batch_run.
  rewrite (Hsame (length (fetches w)) (length (fetches w'))).
  destruct (source _ _) as [|[[[|x page]|]]]; try reflexivity.
  cbn [data].
  match goal with
  | |- context [List.filter ?f ?l] => destruct (List.filter f l)
  end; [reflexivity|].
  repeat match goal with
  | |- context [(?a <? ?b)%nat] => destruct (a <? b)%nat
  end; reflexivity.
Qed.

Lemma while_True_unchanging source fuel st w w' :
  unchanging source ->
  fst (while_True source fuel st w) = fst (while_True source fuel st w').
Proof.
  intros Hsame. revert st w w'.
  induction fuel as [|fuel IH]; intros st w w'; [reflexivity|].
  cbn [while_True]. unfold bind.
  pose proof (loop_body_unchanging source st w w' Hsame) as Hbody.
  destruct (loop_body source st w) as [r w1],
           (loop_body source st w') as [r' w1']. cbn in Hbody. subst r'.
  destruct r as [[why l|st']| |]; try reflexivity. apply IH.
Qed.

Lemma download_unchanging source fuel w w' :
  unchanging source ->
  result (download_all_data source fuel) w =
  result (download_all_data source fuel) w'.
Proof.
  intros Hsame. unfold result. rewrite !download_all_data_run. cbn [fst].
  f_equal. rewrite !download_all_data_exit_run.
  rewrite (Hsame (length (fetches w)) (length (fetches w'))).
  destruct (source _ newest_page) as [|[[page|]]]; try reflexivity.
  cbn [fst]. f_equal. now apply while_True_unchanging.
Qed.

Lemma full_download_store source json_loads fuel w :
  sensor_data (exec (full_download source json_loads fuel) w) =
  match result (download_all_data source fuel) w with
  | Ok l => put_all (saved_entries json_loads l) (sensor_data w)
  | _ => sensor_data w
  end.
Proof.
  unfold exec, result. rewrite full_download_run.
  destruct (download_frame source fuel w) as [log (_ & _ & Hs)].
  unfold exec in Hs.
  destruct (download_all_data source fuel w) as [[l| |] w1]; cbn in *;
    now rewrite Hs.
Qed.

Lemma replace_same_key (a b : RawSample) :
  created_at a = created_at b -> timestamp_key a = timestamp_key b.
Proof. unfold timestamp_key. now intros ->. Qed.

(** C3. Against an unchanging source, a second full download with
    persistence leaves the store as the first one left it: same keys, same
    values, and it issues the same writes.  The key of a sample is a
    function of its [created_at], and a write under a key already present
    replaces the value without adding a key. *)
Theorem full_download_idempotent source json_loads fuel w :
  unchanging source ->
  let w1 := exec (full_download source json_loads fuel) w in
  let w2 := exec (full_download source json_loads fuel) w1 in
  sensor_data w2 = sensor_data w1
  /\ dom (sensor_data w2) = dom (sensor_data w1)
  /\ new_writes (full_download source json_loads fuel) w1
     = new_writes (full_download source json_loads fuel) w
  /\ result (full_download source json_loads fuel) w1
     = result (full_download source json_loads fuel) w
  /\ (is_truthy (latest_created_at (sensor_data w)) = false ->
      exec (main source json_loads fuel) w = w1)
  /\ (forall a b, created_at a = created_at b ->
                  timestamp_key a = timestamp_key b)
  /\ (forall key record record' (m : gmap string SensorRecord),
        <[key := record']> (<[key := record]> m) = <[key := record']> m
        /\ dom (<[key := record']> (<[key := record]> m))
           = dom (<[key := record]> m)).
Proof.
  intros Hsame w1 w2.
  assert (Hstore : sensor_data w2 = sensor_data w1).
  { pose proof (full_download_store source json_loads fuel w) as H1.
    pose proof (full_download_store source json_loads fuel w1) as H2.
    rewrite (download_unchanging source fuel w1 w Hsame) in H2.
    fold w1 in H1. fold w2 in H2. rewrite H2, H1.
    destruct (result (download_all_data source fuel) w); try reflexivity.
    apply put_all_twice. }
  split; [exact Hstore|]. split; [now rewrite Hstore|].
  split; [|split; [|split; [|split]]].
  - rewrite !full_download_writes.
    now rewrite (download_unchanging source fuel w1 w Hsame).
  - unfold result. rewrite !full_download_run.
    pose proof (download_unchanging source fuel w1 w Hsame) as Hres.
    unfold result in Hres.
    destruct (download_all_data source fuel w1) as [r1 wa],
             (download_all_data source fuel w) as [r0 wb].
    cbn in Hres. subst r1. destruct r0; reflexivity.
  - intros Hmode. unfold exec. now rewrite main_full_download.
  - apply replace_same_key.
  - intros key record record' m. split.
    + apply insert_insert_eq.
    + rewrite insert_insert_eq. now rewrite !dom_insert_L.
Qed.

(** ** A source that repeats its oldest timestamp *)

Lemma no_repeat_ends log : no_repeat log -> repeat_ends log.
Proof. intros H i Hi. now apply H in Hi. Qed.

Lemma no_repeat_snoc_ends log e : no_repeat log -> repeat_ends (log ++ [e]).
Proof.
  intros Hno i (e1 & e2 & t & H1 & H2 & Ht1 & Ht2).
  rewrite length_app. cbn.
  pose proof (lookup_lt_Some _ _ _ H2) as Hlt. rewrite length_app in Hlt.
  cbn in Hlt.
  destruct (decide (S i < length log)) as [Hin|Hout]; [|lia].
  exfalso. apply (Hno i). exists e1, e2, t.
  rewrite lookup_app_l in H1 by lia. rewrite lookup_app_l in H2 by lia. auto.
Qed.

Lemma no_repeat_snoc log e e' :
  no_repeat log -> last log = Some e ->
  (forall t, oldest_of e = Some t -> oldest_of e' = Some t -> False) ->
  no_repeat (log ++ [e']).
Proof.
  intros Hno Hlast Hdiff i (e1 & e2 & t & H1 & H2 & Ht1 & Ht2).
  pose proof (lookup_lt_Some _ _ _ H2) as Hlt. rewrite length_app in Hlt.
  cbn in Hlt.
  destruct (decide (S i < length log)) as [Hin|Hout].
  - apply (Hno i). exists e1, e2, t.
    rewrite lookup_app_l in H1 by lia. rewrite lookup_app_l in H2 by lia. auto.
  - assert (Hi : S i = length log) by lia.
    rewrite lookup_app_l in H1 by lia.
    rewrite lookup_app_r in H2 by lia.
    replace (S i - length log) with 0 in H2 by lia. cbn in H2.
    injection H2 as <-.
    rewrite last_lookup, <- Hi in Hlast. cbn in Hlast.
    rewrite H1 in Hlast. injection Hlast as ->.
    now apply (Hdiff t).
Qed.

Lemma trace_step source w0 st w r w' :
  trace_inv w0 st w -> iteration source st w r w' ->
  match r with
  | Ok (Continue st') => trace_inv w0 st' w'
  | OutOfFuel => True
  | _ => exists log, frame w0 w' log /\ repeat_ends log
  end.
Proof.
  intros (log & e & Hframe & Hno & Hlast & Hold) Hit.
  destruct Hit;
    try (exists log; split; [assumption|now apply no_repeat_ends]);
    try (eexists; split; [apply frame_served; eassumption|
                          now apply no_repeat_snoc_ends]).
  match goal with Hsrc : source _ _ = Json _ |- _ => rename Hsrc into Hpage end.
  match goal with Hf : List.filter _ page = page |- _ => rename Hf into Hall end.
  match goal with Hne : page <> [] |- _ => rename Hne into Hnonempty end.
  destruct (cursor_app st page Hnonempty) as (x & Hx & Hlast').
  exists (log ++ [(page_before c, source (length (fetches w)) (page_before c))]),
    (page_before c, source (length (fetches w)) (page_before c)).
  split; [now apply frame_served|]. split; [|split].
  - eapply no_repeat_snoc; eauto.
    intros t Ht Ht'. rewrite Hold in Ht.
    unfold oldest_of in Ht'. cbn [snd] in Ht'. rewrite Hpage, Hx in Ht'.
    cbn in Ht'. injection Ht' as <-.
    match goal with Hc : cursor st = Some c |- _ => rewrite Hc in Ht end.
    injection Ht as Heq.
    destruct (in_range_all c page x Hall (last_In _ _ Hx)) as [_ Hlt].
    rewrite Heq, PyStrFacts.lt_irrefl in Hlt. discriminate.
  - apply last_snoc.
  - unfold oldest_of, cursor. cbn [snd all_data]. now rewrite Hpage, Hx, Hlast'.
Qed.

Lemma download_repeat_ends source fuel w :
  1000 <= fuel ->
  repeat_ends (new_fetches (download_all_data source fuel) w).
Proof.
  intros Hfuel. unfold new_fetches, exec.
  rewrite download_all_data_run. cbn [snd]. rewrite download_all_data_exit_run.
  destruct (source (length (fetches w)) newest_page) as [|[[page|]]] eqn:Hsrc;
    try (cbn; rewrite drop_app_length; intros i (e1 & e2 & t & _ & H2 & _);
         destruct i; discriminate).
  cbn [snd].
  destruct (while_True source fuel (start page) (served source newest_page w))
    as [r w'] eqn:Hrun.
  pose proof (while_True_enough source fuel (start page)
                (served source newest_page w) Hfuel) as [Hend _]; [cbn; lia|].
  rewrite Hrun in Hend. cbn in Hend.
  apply (while_True_rule source (trace_inv w)
           (fun _ w' => exists log, frame w w' log /\ repeat_ends log))
    in Hrun as [->|(log & (Hf & _) & Hends)]; [congruence| | |].
  - cbn [snd]. now rewrite Hf, drop_app_length.
  - clear. intros st w1 r w1' Hinv Hit.
    pose proof (trace_step _ _ _ _ _ _ Hinv Hit) as H.
    destruct r as [[why l|st']| |]; auto.
  - exists [(newest_page, source (length (fetches w)) newest_page)],
      (newest_page, source (length (fetches w)) newest_page).
    split; [apply frame_start|]. split; [|split].
    + intros i (e1 & e2 & t & _ & H2 & _). destruct i; discriminate.
    + reflexivity.
    + unfold oldest_of, cursor. cbn [snd]. now rewrite Hsrc.
Qed.

(** C5. When two consecutive fetches of a full download return pages with
    the same oldest timestamp, the download ends and issues at most 2
    fetches after the second of them (in fact none). *)
Theorem stuck_termination source fuel w i :
  1000 <= fuel ->
  repeated_at (new_fetches (download_all_data source fuel) w) i ->
  result (download_all_data source fuel) w <> OutOfFuel
  /\ length (new_fetches (download_all_data source fuel) w) <= S (S i) + 2
  /\ length (new_fetches (download_all_data source fuel) w) = S (S i).
Proof.
  intros Hfuel Hrep.
  pose proof (download_repeat_ends source fuel w Hfuel i Hrep) as Hlen.
  split; [now apply download_ends|].
  split; [lia|exact Hlen].
Qed.

(** ** A paged fetch without data *)

Lemma with_without reply : with_data reply -> without_data reply -> False.
Proof.
  intros (page & -> & Hne) (response & [= <-] & [H|H]); cbn in H;
    congruence.
Qed.

Lemma gathered_snoc log e : gathered (log ++ [e]) = gathered log ++ collected_from e.
Proof. unfold gathered. rewrite flat_map_app. cbn. now rewrite app_nil_r. Qed.

Lemma ends_keep r (log : list (Params * Reply)) :
  (forall i e, log !! S i = Some e -> with_data e.2) -> ends_at_no_data r log.
Proof.
  intros Hall i e Hi Hno. exfalso. eapply with_without; eauto.
Qed.

Lemma ends_snoc r (log : list (Params * Reply)) e :
  log <> [] ->
  (forall i e, log !! S i = Some e -> with_data e.2) ->
  (without_data e.2 -> r = Ok (NoMoreData, gathered log) /\ gathered log <> []) ->
  ends_at_no_data r (log ++ [e]).
Proof.
  intros Hne Hall Hlast i e' Hi Hno.
  pose proof (lookup_lt_Some _ _ _ Hi) as Hlt. rewrite length_app in Hlt.
  cbn in Hlt.
  destruct (decide (S i < length log)) as [Hin|Hout].
  - rewrite lookup_app_l in Hi by lia. exfalso.
    eapply with_without; eauto.
  - assert (Hi' : S i = length log) by lia.
    rewrite lookup_app_r in Hi by lia.
    replace (S i - length log) with 0 in Hi by lia. cbn in Hi.
    injection Hi as <-.
    rewrite length_app, Hi', take_app_length. cbn.
    destruct (Hlast Hno) as [-> Hg]. repeat split; auto. lia.
Qed.

Lemma with_data_snoc (log : list (Params * Reply)) e :
  (forall i e, log !! S i = Some e -> with_data e.2) ->
  forall i e', (log ++ [e]) !! S i = Some e' -> with_data e.2 -> with_data e'.2.
Proof.
  intros Hall i e' Hi He.
  destruct (decide (S i < length log)) as [Hin|Hout].
  - rewrite lookup_app_l in Hi by lia. eauto.
  - rewrite lookup_app_r in Hi by lia.
    destruct (S i - length log) as [|n]; cbn in Hi; [|destruct n; discriminate].
    now injection Hi as <-.
Qed.

Lemma cursor_nonempty st c : cursor st = Some c -> all_data st <> [].
Proof. unfold cursor. intros H Hnil. rewrite Hnil in H. discriminate. Qed.

Lemma gather_step source w0 st w r w' :
  gather_inv w0 st w ->
  iteration source st w r w' ->
  match r with
  | Ok (Continue st') => gather_inv w0 st' w'
  | Ok (Break why l) =>
      exists log, frame w0 w' log /\ ends_at_no_data (Ok (why, l)) log
  | Raise e => exists log, frame w0 w' log /\ ends_at_no_data (Raise e) log
  | OutOfFuel => True
  end.
Proof.
  intros (log & Hframe & Hlog & Hdata & Hall) Hit.
  destruct Hit;
    try (exists log; split; [assumption|now apply ends_keep]).
  - (* the request failed *)
    eexists. split; [apply frame_served; eassumption|].
    apply ends_snoc; auto. cbn [snd].
    match goal with Hsrc : source _ _ = Unavailable |- _ => rewrite Hsrc end.
    intros (response & [=] & _).
  - (* no data *)
    eexists. split; [apply frame_served; eassumption|].
    apply ends_snoc; auto. intros _. rewrite <- Hdata.
    split; [reflexivity|]. eapply cursor_nonempty; eauto.
  - (* nothing new in the page *)
    eexists. split; [apply frame_served; eassumption|].
    apply ends_snoc; auto. cbn [snd].
    match goal with Hsrc : source _ _ = Json _ |- _ => rewrite Hsrc end.
    intros Hno. exfalso. eapply with_without; [|exact Hno]. now exists page.
  - (* the page was cut short *)
    eexists. split; [apply frame_served; eassumption|].
    apply ends_snoc; auto. cbn [snd].
    match goal with Hsrc : source _ _ = Json _ |- _ => rewrite Hsrc end.
    intros Hno. exfalso. eapply with_without; [|exact Hno]. exists page.
    split; [reflexivity|]. intros ->. cbn in *. congruence.
  - (* safety limit *)
    eexists. split; [apply frame_served; eassumption|].
    apply ends_snoc; auto. cbn [snd].
    match goal with Hsrc : source _ _ = Json _ |- _ => rewrite Hsrc end.
    intros Hno. exfalso. eapply with_without; [|exact Hno]. now exists page.
  - (* the loop goes on *)
    match goal with Hsrc : source _ _ = Json _ |- _ => rename Hsrc into Hpage end.
    match goal with Hf : List.filter _ page = page |- _ => rename Hf into Hsame end.
    exists (log ++ [(page_before c, source (length (fetches w)) (page_before c))]).
    split; [now apply frame_served|]. split; [|split].
    + intros Hnil. now apply app_eq_nil in Hnil as [_ [=]].
    + cbn [all_data]. rewrite gathered_snoc, Hdata. f_equal.
      unfold collected_from. cbn [fst snd]. rewrite Hpage. cbn. now rewrite Hsame.
    + intros i e Hi. eapply with_data_snoc; eauto. cbn [snd].
      rewrite Hpage. now exists page.
Qed.

Lemma download_ends_at_no_data source fuel w :
  1000 <= fuel ->
  ends_at_no_data
    (match fst (download_all_data_exit source fuel w) with
     | Ok (Some why, l) => Ok (why, l)
     | Ok (None, l) => Ok (NothingCollected, l)
     | Raise e => Raise e
     | OutOfFuel => OutOfFuel
     end)
    (new_fetches (download_all_data source fuel) w).
Proof.
  intros Hfuel. unfold new_fetches, exec.
  rewrite download_all_data_run. cbn [snd]. rewrite download_all_data_exit_run.
  destruct (source (length (fetches w)) newest_page) as [|[[page|]]] eqn:Hsrc;
    try (cbn; rewrite drop_app_length; intros i e Hi; destruct i; discriminate).
  cbn [fst snd].
  destruct (while_True source fuel (start page) (served source newest_page w))
    as [r w'] eqn:Hrun.
  pose proof (while_True_enough source fuel (start page)
                (served source newest_page w) Hfuel) as [Hend _]; [cbn; lia|].
  rewrite Hrun in Hend. cbn in Hend.
  apply (while_True_rule source (gather_inv w)
           (fun r w' => exists log, frame w w' log /\ ends_at_no_data r log))
    in Hrun as [->|(log & (Hf & _) & Hends)]; [congruence| | |].
  - cbn [fst snd]. rewrite Hf, drop_app_length.
    destruct r as [[why l]| |]; exact Hends.
  - clear. intros st w1 r w1' Hinv Hit.
    pose proof (gather_step _ _ _ _ _ _ Hinv Hit) as H.
    destruct r as [[why l|st']| |]; auto.
  - exists [(newest_page, source (length (fetches w)) newest_page)].
    split; [apply frame_start|]. split; [discriminate|]. split.
    + unfold gathered, collected_from. cbn. rewrite Hsrc. cbn.
      now rewrite app_nil_r.
    + intros i e Hi. destruct i; discriminate.
Qed.

Lemma main_as_full_download source json_loads fuel w :
  is_truthy (latest_created_at (sensor_data w)) = false ->
  result (main source json_loads fuel) w
  = result (full_download source json_loads fuel) w
  /\ exec (main source json_loads fuel) w
     = exec (full_download source json_loads fuel) w
  /\ new_writes (main source json_loads fuel) w
     = new_writes (full_download source json_loads fuel) w.
Proof.
  intros Hmode.
  pose proof (main_full_download source json_loads fuel w Hmode) as Hmain.
  unfold result, new_writes, exec. now rewrite Hmain.
Qed.

Lemma full_download_result source json_loads fuel w l :
  result (download_all_data source fuel) w = Ok l ->
  result (full_download source json_loads fuel) w
  = unit_of (save_outcome json_loads l 0).
Proof.
  unfold result. rewrite full_download_run.
  destruct (download_all_data source fuel w) as [r w1]. cbn.
  now intros ->.
Qed.

(** C7. In Mode A, when a fetch after the initial one is answered without a
    [data] field or with an empty [data], that fetch is the last one, the
    download returns normally with everything gathered before it, and the
    run goes on to save that list: its writes are the entries of the list,
    all of them when every sample decodes. *)
Theorem no_data_is_normal_end source json_loads fuel w i e :
  1000 <= fuel ->
  is_truthy (latest_created_at (sensor_data w)) = false ->
  new_fetches (download_all_data source fuel) w !! S i = Some e ->
  without_data e.2 ->
  let log := new_fetches (download_all_data source fuel) w in
  let l := gathered (take (S i) log) in
  length log = S (S i)
  /\ fst (download_all_data_exit source fuel w) = Ok (Some NoMoreData, l)
  /\ result (download_all_data source fuel) w = Ok l
  /\ l <> []
  /\ new_writes (main source json_loads fuel) w = saved_entries json_loads l
  /\ sensor_data (exec (main source json_loads fuel) w)
     = put_all (saved_entries json_loads l) (sensor_data w)
  /\ (Forall (decodes json_loads) l ->
      result (main source json_loads fuel) w = Ok tt
      /\ map (fun kr => rec_created_at kr.2)
           (new_writes (main source json_loads fuel) w) = map created_at l
      /\ map fst (new_writes (main source json_loads fuel) w)
         = map timestamp_key l).
Proof.
  intros Hfuel Hmode Hi Hno log l.
  destruct (download_ends_at_no_data source fuel w Hfuel i e Hi Hno)
    as (Hlen & Hr & Hne).
  fold log in Hlen, Hr, Hne. fold l in Hr, Hne.
  assert (Hexit : fst (download_all_data_exit source fuel w)
                  = Ok (Some NoMoreData, l)).
  { destruct (fst (download_all_data_exit source fuel w)) as [[[why|] l']| |];
      try discriminate; now injection Hr as -> ->. }
  assert (Hres : result (download_all_data source fuel) w = Ok l).
  { unfold result. rewrite download_all_data_run. cbn [fst]. now rewrite Hexit. }
  destruct (main_as_full_download source json_loads fuel w Hmode)
    as (Hmr & Hme & Hmw).
  assert (Hwrites : new_writes (main source json_loads fuel) w
                    = saved_entries json_loads l).
  { now rewrite Hmw, full_download_writes, Hres. }
  split; [exact Hlen|]. split; [exact Hexit|]. split; [exact Hres|].
  split; [exact Hne|]. split; [exact Hwrites|].
  split; [now rewrite Hme, full_download_store, Hres|].
  intros Hdec. rewrite Hwrites.
  destruct (saved_entries_decodes json_loads l Hdec) as (Hts & Hkeys & Hout).
  split; [|split; assumption].
  rewrite Hmr, (full_download_result _ _ _ _ l Hres), Hout. reflexivity.
Qed.

(** ** A sample that does not decode *)

Lemma field_not_timeout j key : field j key <> OutOfFuel.
Proof.
  destruct j; cbn; try discriminate. destruct (dict_get items key); discriminate.
Qed.

Lemma lacks_raises j key : lacks j key -> exists e, field j key = Raise e.
Proof.
  intros Hl. pose proof (field_not_timeout j key) as Hno.
  destruct (field j key) as [v|e|] eqn:Hf; [|eauto|congruence].
  now destruct (Hl v).
Qed.

Lemma undecodable_raises json_loads sample :
  undecodable json_loads sample <->
  exists e, sensor_record json_loads sample = Raise e.
Proof.
  unfold undecodable, sensor_record.
  destruct (json_loads (value sample)) as [j|]; [|split; eauto].
  pose proof (field_not_timeout j "temperature") as Ht.
  pose proof (field_not_timeout j "humidity") as Hh.
  pose proof (field_not_timeout j "soil") as Hs.
  split.
  - intros [Hl|[Hl|Hl]]; apply lacks_raises in Hl as [e He].
    + rewrite He. eauto.
    + destruct (field j "temperature"); eauto; [|congruence].
      rewrite He. eauto.
    + destruct (field j "temperature"); eauto; [|congruence].
      destruct (field j "humidity"); eauto; [|congruence].
      rewrite He. eauto.
  - intros [e He].
    destruct (field j "temperature") as [t| |] eqn:Hft;
      [|left; intros v; congruence|congruence].
    destruct (field j "humidity") as [h| |] eqn:Hfh;
      [|right; left; intros v; congruence|congruence].
    destruct (field j "soil") as [s| |] eqn:Hfs;
      [discriminate|right; right; intros v; congruence|congruence].
Qed.

Lemma save_stops_at_failure json_loads before sample after e :
  Forall (decodes json_loads) before ->
  sensor_record json_loads sample = Raise e ->
  saved_entries json_loads (before ++ sample :: after)
  = saved_entries json_loads before
  /\ forall n, save_outcome json_loads (before ++ sample :: after) n = Raise e.
Proof.
  intros Hdec Hfail. induction Hdec as [|x before [r Hr] _ [IH1 IH2]]; cbn.
  - rewrite Hfail. auto.
  - rewrite Hr, IH1. auto.
Qed.

(** C8. When a sample of the list being saved does not decode (its
    [value] is not parseable, or the parsed value lacks [temperature],
    [humidity] or [soil]) while those before it do, [save_to_firebase]
    raises, and so does the run, in either mode; the writes are those of
    the samples before the failing one, nothing is written for it or for
    the samples after it. *)
Theorem decode_failure_aborts source json_loads fuel w before sample after :
  Forall (decodes json_loads) before ->
  undecodable json_loads sample ->
  exists e,
    sensor_record json_loads sample = Raise e
    /\ result (save_to_firebase json_loads (before ++ sample :: after)) w
       = Raise e
    /\ new_writes (save_to_firebase json_loads (before ++ sample :: after)) w
       = saved_entries json_loads before
    /\ map fst (saved_entries json_loads before) = map timestamp_key before
    /\ length (saved_entries json_loads before) = length before
    /\ (is_truthy (latest_created_at (sensor_data w)) = false ->
        result (download_all_data source fuel) w
        = Ok (before ++ sample :: after) ->
        result (main source json_loads fuel) w = Raise e
        /\ new_writes (main source json_loads fuel) w
           = saved_entries json_loads before)
    /\ (forall T page,
          latest_created_at (sensor_data w) = Some T ->
          PyStr.truthy T = true ->
          source (length (fetches w)) newest_page
          = Json {| data := Some page |} ->
          scan_new T page [] = before ++ sample :: after ->
          result (main source json_loads fuel) w = Raise e
          /\ new_writes (main source json_loads fuel) w
             = saved_entries json_loads before).
Proof.
  intros Hdec Hbad. apply undecodable_raises in Hbad as [e He].
  destruct (save_stops_at_failure json_loads before sample after e Hdec He)
    as [Hentries Hout].
  destruct (saved_entries_decodes json_loads before Hdec) as (_ & Hkeys & _).
  exists e. split; [exact He|]. split; [|split; [|split; [|split; [|split]]]].
  - unfold result. rewrite save_to_firebase_run. cbn. apply Hout.
  - unfold new_writes, exec. rewrite save_to_firebase_run. cbn.
    rewrite drop_app_length. exact Hentries.
  - exact Hkeys.
  - rewrite <- (length_map fst), Hkeys. apply length_map.
  - intros Hmode Hres.
    destruct (main_as_full_download source json_loads fuel w Hmode)
      as (Hmr & _ & Hmw).
    rewrite Hmr, Hmw, full_download_writes, Hres.
    rewrite (full_download_result _ _ _ _ _ Hres), Hout. auto.
  - intros T page Hlatest Htruthy Hreply Hscan.
    pose proof (main_incremental source json_loads fuel T w Hlatest Htruthy)
      as Hmain.
    rewrite (incremental_run _ _ _ page _ Hreply), Hscan in Hmain.
    unfold result, new_writes, exec. rewrite Hmain. cbn.
    rewrite Hout, drop_app_length. auto.
Qed.

(** ** Mode B fetches one page *)

Lemma incremental_exec source json_loads T w :
  exec (incremental source json_loads T) w =
  stored (incremental_entries json_loads T
            (source (length (fetches w)) newest_page))
         (served source newest_page w).
Proof.
  unfold exec.
  destruct (source (length (fetches w)) newest_page) as [|[[page|]]] eqn:Hreply.
  - unfold incremental, download_new_data, bind. rewrite fetch_batch_run.
    change (params_of None) with newest_page. rewrite Hreply. cbn [snd].
    cbn. now rewrite stored_nil.
  - now rewrite (incremental_run _ _ _ page _ Hreply).
  - unfold incremental, download_new_data, bind. rewrite fetch_batch_run.
    change (params_of None) with newest_page. rewrite Hreply. cbn.
    now rewrite stored_nil.
Qed.

Lemma saved_entries_length json_loads (l : list RawSample) :
  length (saved_entries json_loads l) <= length l.
Proof.
  induction l as [|x l IH]; cbn; [lia|].
  destruct (sensor_record json_loads x); cbn; lia.
Qed.

Lemma scan_new_within T (page : list RawSample) :
  length (scan_new T page []) <= length page
  /\ forall sample, In sample (scan_new T page []) ->
       In sample page /\ newer_than T sample.
Proof.
  destruct (scan_new_split T page []) as (newer & rest & -> & Hall & _ & ->).
  cbn. split; [rewrite length_app; lia|].
  intros sample Hin. split; [apply in_or_app; now left|].
  rewrite Forall_forall in Hall. apply Hall. now apply list_elem_of_In.
Qed.

(** C10. An incremental run issues exactly one request, for the newest
    page with the batch limit 200 and no cursor, whatever the watermark.
    Every record it writes is built from a sample of that page that is
    newer than the watermark; so it writes no more records than the page
    holds, at most 200 when the source honours the limit, and no record
    whose timestamp is absent from the page. *)
Theorem incremental_single_page source json_loads fuel w T :
  latest_created_at (sensor_data w) = Some T ->
  PyStr.truthy T = true ->
  let reply := source (length (fetches w)) newest_page in
  new_fetches (main source json_loads fuel) w = [(newest_page, reply)]
  /\ limit newest_page = 200
  /\ before_created_at newest_page = None
  /\ (forall key record,
        In (key, record) (new_writes (main source json_loads fuel) w) ->
        exists page sample,
          reply = Json {| data := Some page |}
          /\ In sample page
          /\ newer_than T sample
          /\ key = timestamp_key sample
          /\ rec_created_at record = created_at sample)
  /\ (forall page,
        reply = Json {| data := Some page |} ->
        length (new_writes (main source json_loads fuel) w) <= length page
        /\ ((length page <= limit newest_page) ->
            length (new_writes (main source json_loads fuel) w) <= 200)
        /\ forall ts key record,
             ~ In ts (map created_at page) ->
             In (key, record) (new_writes (main source json_loads fuel) w) ->
             rec_created_at record <> ts)
  /\ ((forall page, reply <> Json {| data := Some page |}) ->
      new_writes (main source json_loads fuel) w = []).
Proof.
  intros Hlatest Htruthy reply.
  assert (Hexec : exec (main source json_loads fuel) w =
                  stored (incremental_entries json_loads T reply)
                         (served source newest_page w)).
  { unfold exec. rewrite (main_incremental _ _ _ T) by assumption.
    apply incremental_exec. }
  assert (Hwrites : new_writes (main source json_loads fuel) w =
                    incremental_entries json_loads T reply).
  { unfold new_writes. rewrite Hexec. cbn. apply drop_app_length. }
  assert (Hfrom : forall key record,
             In (key, record) (incremental_entries json_loads T reply) ->
             exists page sample,
               reply = Json {| data := Some page |}
               /\ In sample page /\ newer_than T sample
               /\ key = timestamp_key sample
               /\ rec_created_at record = created_at sample).
  { intros key record Hin. unfold incremental_entries in Hin.
    destruct reply as [|[[page|]]]; cbn in Hin; try tauto.
    apply saved_entries_In in Hin as (s & Hs & Hkey & Hrec & _).
    apply scan_new_within in Hs as [Hs Hnew]. exists page, s. auto. }
  split; [|split; [reflexivity|split; [reflexivity|split; [|split]]]].
  - unfold new_fetches. rewrite Hexec. cbn. apply drop_app_length.
  - rewrite Hwrites. exact Hfrom.
  - intros page Hreply. rewrite Hwrites.
    assert (Hlen : length (incremental_entries json_loads T reply) <= length page).
    { rewrite Hreply. cbn.
      pose proof (saved_entries_length json_loads (scan_new T page [])).
      pose proof (scan_new_within T page) as [? _]. lia. }
    split; [exact Hlen|].
    split; [intros Hlim; unfold newest_page, BATCH_LIMIT in Hlim;
            cbn in Hlim; lia|].
    intros ts key record Habsent Hin Hts.
    destruct (Hfrom key record Hin) as (page' & s & Hreply' & Hs & _ & _ & Hrec).
    rewrite Hreply in Hreply'. injection Hreply' as <-.
    apply Habsent. rewrite <- Hts, Hrec. now apply in_map.
  - intros Hnone. rewrite Hwrites. unfold incremental_entries.
    destruct reply as [|[[page|]]]; try reflexivity.
    now destruct (Hnone page).
Qed.

(** ** A page that repeats the record at the cursor *)

(** When every sample of the page is below the cursor, a batch shorter than
    the page has lost a sample to the floor. *)
Lemma cut_short_touches_floor c (page : list RawSample) :
  Forall (fun sample => PyStr.lt (created_at sample) c = true) page ->
  length (List.filter (in_range c) page) < length page ->
  exists sample,
    In sample page /\ PyStr.lt (created_at sample) EARLIEST_DATE = true.
Proof.
  induction page as [|x page IH]; cbn; [lia|].
  intros Hall Hlen. apply Forall_cons_1 in Hall as [Hx Hall].
  unfold in_range at 1 in Hlen. rewrite Hx, andb_true_r in Hlen.
  destruct (PyStr.le EARLIEST_DATE (created_at x)) eqn:Hfloor.
  - cbn in Hlen. destruct IH as (s & Hs & Hlt); [assumption|lia|]. eauto.
  - exists x. split; [now left|]. now rewrite PyStrFacts.lt_not_le, Hfloor.
Qed.

(** C4. With the cursor at [t4], a page that starts with the record at
    [t4] itself loses that record to the upper bound of the filter: the
    batch is shorter than the page although no sample of the page is before
    [EARLIEST_DATE], the iteration leaves through the "reached earliest
    date limit" break, and the download returns without the samples of
    [t2] and [t1], which the source still holds and which are after the
    floor. *)
Theorem cut_short_by_upper_bound :
  let w1 := served Demo.inclusive_source newest_page Demo.empty_world in
  let st := start [Demo.sample_at Demo.t5; Demo.sample_at Demo.t4] in
  let page := [Demo.sample_at Demo.t4; Demo.sample_at Demo.t3] in
  cursor st = Some Demo.t4
  /\ Demo.inclusive_source (length (fetches w1)) (page_before Demo.t4)
     = Json {| data := Some page |}
  /\ List.filter (in_range Demo.t4) page = [Demo.sample_at Demo.t3]
  /\ length (List.filter (in_range Demo.t4) page) < length page
  /\ Forall (fun sample => PyStr.lt (created_at sample) EARLIEST_DATE = false) page
  /\ fst (loop_body Demo.inclusive_source st w1)
     = Ok (Break BatchCutShort
             [Demo.sample_at Demo.t5; Demo.sample_at Demo.t4;
              Demo.sample_at Demo.t3])
  /\ fst (download_all_data_exit Demo.inclusive_source 1000 Demo.empty_world)
     = Ok (Some BatchCutShort,
           [Demo.sample_at Demo.t5; Demo.sample_at Demo.t4;
            Demo.sample_at Demo.t3])
  /\ length (new_fetches (download_all_data Demo.inclusive_source 1000)
               Demo.empty_world) = 2
  /\ Demo.inclusive_source 2 (page_before Demo.t3)
     = Json {| data := Some [Demo.sample_at Demo.t3; Demo.sample_at Demo.t2] |}
  /\ PyStr.le EARLIEST_DATE Demo.t2 = true.
Proof.
  cbv zeta. split; [reflexivity|]. split; [reflexivity|].
  split; [reflexivity|]. split; [vm_compute; constructor|].
  split; [repeat constructor|].
  repeat split; vm_compute; reflexivity.
Qed.

(** ** The theorems on the concrete runs *)

Lemma paged_source_descending : pages_descending Demo.paged_source.
Proof.
  intros n params page. unfold Demo.paged_source.
  destruct (before_created_at params) as [c|].
  - destruct (String.eqb c Demo.t4); intros [= <-]; reflexivity.
  - intros [= <-]. reflexivity.
Defined.

Lemma paged_source_unchanging : unchanging Demo.paged_source.
Proof. intros n m params. reflexivity. Defined.

Lemma incremental_boundary_witness :
  latest_created_at (sensor_data Demo.synced_world) = Some Demo.t1
  /\ PyStr.truthy Demo.t1 = true
  /\ Demo.five_source (length (fetches Demo.synced_world)) newest_page
     = Json {| data := Some Demo.newest_five |}
  /\ new_writes (main Demo.five_source Demo.loads 1000) Demo.synced_world
     = saved_entries Demo.loads
         [Demo.sample_at Demo.t4; Demo.sample_at Demo.t3; Demo.sample_at Demo.t2].
Proof.
  assert (H1 : latest_created_at (sensor_data Demo.synced_world) = Some Demo.t1)
    by (vm_compute; reflexivity).
  assert (H2 : PyStr.truthy Demo.t1 = true) by reflexivity.
  assert (H3 : Demo.five_source (length (fetches Demo.synced_world)) newest_page
               = Json {| data := Some Demo.newest_five |}) by reflexivity.
  split; [exact H1|]. split; [exact H2|]. split; [exact H3|].
  destruct (incremental_boundary Demo.five_source Demo.loads 1000
              Demo.synced_world Demo.t1 Demo.newest_five H1 H2 H3)
    as (newer & rest & _ & _ & _ & _ & Hw & _ & _ & H5 & _).
  rewrite Hw. f_equal.
  apply (H5 _ _ _ _ _ eq_refl); reflexivity.
Defined.

Lemma date_floor_witness :
  pages_descending Demo.paged_source
  /\ is_truthy (latest_created_at (sensor_data Demo.empty_world)) = false
  /\ 1000 <= 1000
  /\ In ("2025-11-02T10-01-00Z", Demo.record_at Demo.t2)
        (new_writes (main Demo.paged_source Demo.loads 1000) Demo.empty_world)
  /\ PyStr.le EARLIEST_DATE (rec_created_at (Demo.record_at Demo.t2)) = true.
Proof.
  assert (H2 : is_truthy (latest_created_at (sensor_data Demo.empty_world)) = false)
    by (vm_compute; reflexivity).
  assert (Hin : In ("2025-11-02T10-01-00Z", Demo.record_at Demo.t2)
                  (new_writes (main Demo.paged_source Demo.loads 1000)
                     Demo.empty_world))
    by (vm_compute; do 3 right; left; reflexivity).
  split; [exact paged_source_descending|]. split; [exact H2|].
  split; [lia|]. split; [exact Hin|].
  destruct (date_floor Demo.paged_source Demo.loads 1000 Demo.empty_world
              paged_source_descending H2 (le_n 1000)) as (_ & _ & Hw).
  exact (proj1 (Hw _ _ Hin)).
Defined.

Lemma full_download_idempotent_witness :
  unchanging Demo.paged_source
  /\ sensor_data
       (exec (full_download Demo.paged_source Demo.loads 1000)
          (exec (full_download Demo.paged_source Demo.loads 1000)
             Demo.empty_world))
     = sensor_data
         (exec (full_download Demo.paged_source Demo.loads 1000)
            Demo.empty_world).
Proof.
  split; [exact paged_source_unchanging|].
  exact (proj1 (full_download_idempotent Demo.paged_source Demo.loads 1000
                  Demo.empty_world paged_source_unchanging)).
Defined.

Lemma stuck_termination_witness :
  1000 <= 1000
  /\ repeated_at
       (new_fetches (download_all_data Demo.repeating_source 1000)
          Demo.empty_world) 1
  /\ length (new_fetches (download_all_data Demo.repeating_source 1000)
               Demo.empty_world) <= 3 + 2.
Proof.
  assert (Hrep : repeated_at
                   (new_fetches (download_all_data Demo.repeating_source 1000)
                      Demo.empty_world) 1).
  { exists (page_before Demo.t4,
            Demo.page_of [Demo.sample_at Demo.t3; Demo.sample_at Demo.t2]),
           (page_before Demo.t2,
            Demo.page_of [Demo.sample_at Demo.t3; Demo.sample_at Demo.t2]),
           Demo.t2.
    repeat split; vm_compute; reflexivity. }
  split; [lia|]. split; [exact Hrep|].
  exact (proj1 (proj2 (stuck_termination Demo.repeating_source 1000
                         Demo.empty_world 1 (le_n 1000) Hrep))).
Defined.

Lemma safety_valve_terminates_witness :
  1000 <= 1000
  /\ result (download_all_data Demo.paged_source 1000) Demo.empty_world
     <> OutOfFuel.
Proof.
  split; [lia|].
  exact (proj1 (safety_valve_terminates Demo.paged_source 1000
                  Demo.empty_world (le_n 1000))).
Defined.

Lemma no_data_is_normal_end_witness :
  1000 <= 1000
  /\ is_truthy (latest_created_at (sensor_data Demo.empty_world)) = false
  /\ new_fetches (download_all_data Demo.paged_source 1000) Demo.empty_world
       !! 2 = Some (page_before Demo.t2, Json {| data := None |})
  /\ without_data (Json {| data := None |})
  /\ result (download_all_data Demo.paged_source 1000) Demo.empty_world
     = Ok (gathered
             (take 2 (new_fetches (download_all_data Demo.paged_source 1000)
                        Demo.empty_world))).
Proof.
  assert (H2 : is_truthy (latest_created_at (sensor_data Demo.empty_world)) = false)
    by (vm_compute; reflexivity).
  assert (H3 : new_fetches (download_all_data Demo.paged_source 1000)
                 Demo.empty_world !! 2
               = Some (page_before Demo.t2, Json {| data := None |}))
    by (vm_compute; reflexivity).
  assert (H4 : without_data (Json {| data := None |})).
  { exists {| data := None |}. split; [reflexivity|now left]. }
  split; [lia|]. split; [exact H2|]. split; [exact H3|]. split; [exact H4|].
  exact (proj1 (proj2 (proj2
           (no_data_is_normal_end Demo.paged_source Demo.loads 1000
              Demo.empty_world 1 _ (le_n 1000) H2 H3 H4)))).
Defined.

Lemma decode_failure_aborts_witness :
  Forall (decodes Demo.loads) [Demo.sample_at Demo.t5]
  /\ undecodable Demo.loads {| created_at := Demo.t4; value := Demo.no_soil_text |}
  /\ exists e,
       result (save_to_firebase Demo.loads
                 ([Demo.sample_at Demo.t5]
                  ++ {| created_at := Demo.t4; value := Demo.no_soil_text |}
                  :: [Demo.sample_at Demo.t3])) Demo.empty_world = Raise e.
Proof.
  assert (H1 : Forall (decodes Demo.loads) [Demo.sample_at Demo.t5]).
  { repeat constructor. exists (Demo.record_at Demo.t5). reflexivity. }
  assert (H2 : undecodable Demo.loads
                 {| created_at := Demo.t4; value := Demo.no_soil_text |}).
  { right; right. intros v. discriminate. }
  split; [exact H1|]. split; [exact H2|].
  destruct (decode_failure_aborts Demo.five_source Demo.loads 1000
              Demo.empty_world _ _ [Demo.sample_at Demo.t3] H1 H2)
    as (e & _ & Hres & _).
  exists e. exact Hres.
Defined.

Lemma cursor_strictly_decreases_witness :
  let w0 := served Demo.paged_source newest_page Demo.empty_world in
  let st :=
    {| all_data := [Demo.sample_at Demo.t5; Demo.sample_at Demo.t4;
                    Demo.sample_at Demo.t3; Demo.sample_at Demo.t2];
       previous_oldest := Some Demo.t4;
       batch_count := 2;
       stuck_count := 0 |} in
  let w := served Demo.paged_source (page_before Demo.t4) w0 in
  reaches Demo.paged_source
    (start [Demo.sample_at Demo.t5; Demo.sample_at Demo.t4]) w0 st w
  /\ exists c, cursor st = Some c /\ PyStr.lt c Demo.t4 = true /\ c <> Demo.t4.
Proof.
  cbv zeta.
  assert (Hreach :
    reaches Demo.paged_source
      (start [Demo.sample_at Demo.t5; Demo.sample_at Demo.t4])
      (served Demo.paged_source newest_page Demo.empty_world)
      {| all_data := [Demo.sample_at Demo.t5; Demo.sample_at Demo.t4;
                      Demo.sample_at Demo.t3; Demo.sample_at Demo.t2];
         previous_oldest := Some Demo.t4;
         batch_count := 2;
         stuck_count := 0 |}
      (served Demo.paged_source (page_before Demo.t4)
         (served Demo.paged_source newest_page Demo.empty_world))).
  { eapply reaches_next; [apply reaches_here|]. vm_compute. reflexivity. }
  split; [exact Hreach|].
  exact (proj1 (proj2 (cursor_strictly_decreases Demo.paged_source _ _ _ _ Hreach))
           Demo.t4 eq_refl).
Defined.

Lemma incremental_single_page_witness :
  latest_created_at (sensor_data Demo.synced_world) = Some Demo.t1
  /\ PyStr.truthy Demo.t1 = true
  /\ new_fetches (main Demo.five_source Demo.loads 1000) Demo.synced_world
     = [(newest_page, Json {| data := Some Demo.newest_five |})].
Proof.
  assert (H1 : latest_created_at (sensor_data Demo.synced_world) = Some Demo.t1)
    by (vm_compute; reflexivity).
  split; [exact H1|]. split; [reflexivity|].
  exact (proj1 (incremental_single_page Demo.five_source Demo.loads 1000
                  Demo.synced_world Demo.t1 H1 eq_refl)).
Defined.

(** ** The latest stored timestamp *)

Lemma latest_created_at_spec (m : gmap string SensorRecord) :
  match latest_created_at m with
  | None => m = ∅
  | Some t => is_latest m t
  end.
Proof.
  unfold latest_created_at.
  apply (map_fold_weak_ind
    (fun r (m : gmap string SensorRecord) =>
       match r with None => m = ∅ | Some t => is_latest m t end)).
  - reflexivity.
  - intros i x m' r Hfresh IH. destruct r as [t|].
    + destruct IH as [(k & rec & Hk & Ht) Hmax].
      assert (Hki : k <> i) by (intros ->; congruence).
      destruct (PyStr.lt t (rec_created_at x)) eqn:Hlt.
      * split.
        -- exists i, x. now rewrite lookup_insert_eq.
        -- intros k' rec' Hk'.
           destruct (decide (i = k')) as [->|Hne].
           ++ rewrite lookup_insert_eq in Hk'. injection Hk' as <-.
              apply PyStrFacts.le_refl.
           ++ rewrite lookup_insert_ne in Hk' by assumption.
              apply (PyStrFacts.le_trans _ t); [now apply (Hmax k' rec')|].
              now apply PyStrFacts.lt_le.
      * split.
        -- exists k, rec. now rewrite lookup_insert_ne by auto.
        -- intros k' rec' Hk'.
           destruct (decide (i = k')) as [->|Hne].
           ++ rewrite lookup_insert_eq in Hk'. injection Hk' as <-.
              now rewrite PyStrFacts.le_not_lt, Hlt.
           ++ rewrite lookup_insert_ne in Hk' by assumption. now apply (Hmax k' rec').
    + subst m'. split.
      * exists i, x. now rewrite lookup_insert_eq.
      * intros k' rec' Hk'.
        destruct (decide (i = k')) as [->|Hne].
        -- rewrite lookup_insert_eq in Hk'. injection Hk' as <-.
           apply PyStrFacts.le_refl.
        -- rewrite lookup_insert_ne, lookup_empty in Hk' by assumption.
           discriminate.
Qed.

Lemma is_latest_unique (m : gmap string SensorRecord) t t' :
  is_latest m t -> is_latest m t' -> t = t'.
Proof.
  intros [(k & r & Hk & <-) Hmax] [(k' & r' & Hk' & <-) Hmax'].
  apply String.leb_antisym; [now apply (Hmax' k r)|now apply (Hmax k' r')].
Qed.


(** ** The key of a sample *)

Lemma replace_twice_cons c ts :
  PyStr.replace "." "-" (PyStr.replace ":" "-" (String c ts))
  = String (key_char c) (PyStr.replace "." "-" (PyStr.replace ":" "-" ts)).
Proof.
  cbn [PyStr.replace]. unfold key_char.
  destruct (Ascii.eqb c ":"); reflexivity.
Qed.

Lemma key_char_safe c :
  Ascii.eqb (key_char c) ":" = false /\ Ascii.eqb (key_char c) "." = false.
Proof.
  unfold key_char.
  destruct (Ascii.eqb c ":") eqn:Hcolon; [split; reflexivity|].
  destruct (Ascii.eqb c ".") eqn:Hdot; [split; reflexivity|]. auto.
Qed.

Lemma key_char_fixed c :
  Ascii.eqb c ":" = false -> Ascii.eqb c "." = false -> key_char c = c.
Proof. unfold key_char. now intros -> ->. Qed.

Lemma key_of_string ts :
  let key := PyStr.replace "." "-" (PyStr.replace ":" "-" ts) in
  occurs ":" key = false
  /\ occurs "." key = false
  /\ String.length key = String.length ts
  /\ (forall i, String.get i key = key_char <$> String.get i ts)
  /\ (occurs ":" ts = false -> occurs "." ts = false -> key = ts).
Proof.
  induction ts as [|c ts (IH1 & IH2 & IH3 & IH4 & IH5)].
  - cbn. repeat split; auto.
  - cbv zeta. rewrite replace_twice_cons.
    destruct (key_char_safe c) as [Hc1 Hc2].
    split; [cbn [occurs]; now rewrite Hc1|].
    split; [cbn [occurs]; now rewrite Hc2|].
    split; [cbn [String.length]; now rewrite IH3|].
    split.
    + intros [|i]; [reflexivity|]. cbn [String.get]. apply IH4.
    + cbn [occurs]. intros Hcolon Hdot.
      apply orb_false_iff in Hcolon as [Hcolon Hts1].
      apply orb_false_iff in Hdot as [Hdot Hts2].
      now rewrite key_char_fixed, IH5.
Qed.

(** X2. The key [save_to_firebase] derives from a timestamp holds neither
    [:] nor [.]; it has the length of the timestamp and differs from it
    only where the timestamp holds [:] or [.], which become [-]; a
    timestamp without these characters is its own key, so deriving the key
    of a key changes nothing.  The derivation is not injective: timestamps
    that differ only by [:], [.] or [-] at the same place share a key. *)
Theorem timestamp_key_shape (sample : RawSample) :
  occurs ":" (timestamp_key sample) = false
  /\ occurs "." (timestamp_key sample) = false
  /\ String.length (timestamp_key sample) = String.length (created_at sample)
  /\ (forall i, String.get i (timestamp_key sample)
                = key_char <$> String.get i (created_at sample))
  /\ (occurs ":" (created_at sample) = false ->
      occurs "." (created_at sample) = false ->
      timestamp_key sample = created_at sample)
  /\ (forall v, timestamp_key {| created_at := timestamp_key sample; value := v |}
                = timestamp_key sample)
  /\ (forall (head tail v : string),
        timestamp_key {| created_at := head +:+ String ":" tail; value := v |}
        = timestamp_key {| created_at := head +:+ String "." tail; value := v |}
        /\ timestamp_key {| created_at := head +:+ String ":" tail; value := v |}
           = timestamp_key {| created_at := head +:+ String "-" tail; value := v |}
        /\ head +:+ String ":" tail <> head +:+ String "." tail).
Proof.
  destruct (key_of_string (created_at sample)) as (H1 & H2 & H3 & H4 & H5).
  split; [exact H1|]. split; [exact H2|]. split; [exact H3|].
  split; [exact H4|]. split; [exact H5|]. split.
  - intros v.
    destruct (key_of_string (timestamp_key sample)) as (_ & _ & _ & _ & Hid).
    now apply Hid.
  - intros head tail v. unfold timestamp_key. cbn [created_at].
    induction head as [|c head (IHa & IHb & IHc)].
    + cbn. repeat split; discriminate.
    + repeat match goal with
             | |- context [String.append (String c head) ?x] =>
                 change (String.append (String c head) x)
                   with (String c (String.append head x))
             end.
      rewrite !replace_twice_cons. split; [now rewrite IHa|].
      split; [now rewrite IHb|]. intros [= Heq]. now apply IHc.
Qed.

(** ** One request *)

(** X3. [fetch_batch] issues exactly one request and touches neither the
    writes nor the store; the request carries the feed [json] and the limit
    200; it carries the cursor only when the cursor is a non-empty string,
    so that an empty cursor asks for the newest page like no cursor at all.
    It raises exactly when the request fails, and returns the decoded body
    otherwise, with or without [data]. *)
Theorem fetch_batch_request source (before_timestamp : option string) (w : World) :
  let params := params_of before_timestamp in
  let reply := source (length (fetches w)) params in
  exec (fetch_batch source before_timestamp) w
  = {| fetches := fetches w ++ [(params, reply)];
       writes := writes w;
       sensor_data := sensor_data w |}
  /\ feed params = "json" /\ limit params = 200
  /\ (before_created_at params = None
       <-> before_timestamp = None \/ before_timestamp = Some "")
  /\ (forall t, before_created_at params = Some t
                 <-> before_timestamp = Some t /\ t <> "")
  /\ fetch_batch source (Some "") w = fetch_batch source None w
  /\ (forall e, result (fetch_batch source before_timestamp) w = Raise e
                 <-> reply = Unavailable /\ e = RequestError)
  /\ (forall response,
        result (fetch_batch source before_timestamp) w = Ok response
        <-> reply = Json response)
  /\ result (fetch_batch source before_timestamp) w <> OutOfFuel.
Proof.
  cbv zeta. unfold exec, result. rewrite !fetch_batch_run. cbn [fst snd].
  split; [reflexivity|]. split; [reflexivity|]. split; [reflexivity|].
  split; [|split; [|split; [reflexivity|]]].
  - unfold params_of. cbn. destruct before_timestamp as [[|c t]|]; cbn;
      split; auto; try discriminate. intros [|]; discriminate.
  - intros t. unfold params_of. cbn.
    destruct before_timestamp as [[|c t']|]; cbn.
    + split; [discriminate|]. intros [[= <-] Hne]. now destruct Hne.
    + split; [|now intros [H _]].
      intros [= <-]. split; [reflexivity|discriminate].
    + split; [discriminate|]. intros [[=] _].
  - destruct (source (length (fetches w)) (params_of before_timestamp))
      as [|response]; cbn.
    + split; [|split; [|discriminate]].
      * intros e. split; [now intros [= <-]|now intros [_ ->]].
      * intros response. split; discriminate.
    + split; [|split; [|discriminate]].
      * intros e. split; [discriminate|]. intros [[=] _].
      * intros response'. split; now intros [= <-].
Qed.

(** ** Saving a list *)

Lemma put_all_binding entries (m : gmap string SensorRecord) key :
  put_all entries m !! key
  = match binding key entries with
    | Some record => Some record
    | None => m !! key
    end.
Proof.
  revert m. induction entries as [|[k record] rest IH]; intros m; [reflexivity|].
  rewrite put_all_cons, IH. cbn [binding fst snd].
  destruct (binding key rest); [reflexivity|].
  destruct (String.eqb_spec k key) as [->|Hne].
  - apply lookup_insert_eq.
  - now apply lookup_insert_ne.
Qed.



Lemma binding_In key entries record :
  binding key entries = Some record -> In (key, record) entries.
Proof.
  induction entries as [|[k r] rest IH]; [discriminate|]. cbn [binding].
  destruct (binding key rest) as [later|].
  - intros [= <-]. right. now apply IH.
  - destruct (String.eqb_spec k key) as [->|]; [|discriminate].
    intros [= <-]. now left.
Qed.

Lemma binding_present key entries :
  key ∈ entries.*1 -> exists record, binding key entries = Some record.
Proof.
  induction entries as [|[k r] rest IH]; [intros H; now apply elem_of_nil in H|].
  rewrite fmap_cons. cbn [binding fst]. intros Hin.
  destruct (binding key rest) as [later|] eqn:Hrest; [eauto|].
  apply elem_of_cons in Hin as [->|Hin].
  - rewrite String.eqb_refl. eauto.
  - destruct (IH Hin) as [r' Hr']. discriminate.
Qed.





(** ** Decoding one sample *)


(** ** The log of a full download *)

Lemma consecutive_snoc R (log : list (Params * Reply)) e e' :
  consecutive R log -> last log = Some e -> R e e' ->
  consecutive R (log ++ [e']).
Proof.
  intros Hlog Hlast HR i a b Ha Hb.
  pose proof (lookup_lt_Some _ _ _ Hb) as Hlt. rewrite length_app in Hlt.
  cbn in Hlt.
  destruct (decide (S i < length log)) as [Hin|Hout].
  - rewrite lookup_app_l in Ha by lia. rewrite lookup_app_l in Hb by lia.
    now apply (Hlog i).
  - assert (Hi : S i = length log) by lia.
    rewrite lookup_app_l in Ha by lia. rewrite lookup_app_r in Hb by lia.
    replace (S i - length log) with 0 in Hb by lia. cbn in Hb.
    injection Hb as <-.
    rewrite last_lookup, <- Hi in Hlast. cbn in Hlast.
    rewrite Ha in Hlast. now injection Hlast as ->.
Qed.

Lemma genuine_snoc source w0 w log params :
  frame w0 w log -> genuine source w0 log ->
  feed params = FEED -> limit params = BATCH_LIMIT ->
  genuine source w0 (log ++ [(params, source (length (fetches w)) params)]).
Proof.
  intros (Hf & _) Hlog Hfeed Hlimit i e Hi.
  destruct (decide (i < length log)) as [Hin|Hout].
  - rewrite lookup_app_l in Hi by lia. now apply Hlog.
  - rewrite lookup_app_r in Hi by lia.
    destruct (i - length log) as [|n] eqn:Hn; cbn in Hi;
      [|destruct n; discriminate].
    injection Hi as <-. cbn [fst snd]. rewrite Hf, length_app.
    replace (length (fetches w0) + i) with (length (fetches w0) + length log)
      by lia. auto.
Qed.

Lemma answered_snoc (log : list (Params * Reply)) params response :
  Forall answered log -> Forall answered (log ++ [(params, Json response)]).
Proof.
  intros H. apply Forall_app. split; [exact H|].
  repeat constructor. discriminate.
Qed.

Lemma gathered_snoc_nothing log params reply :
  collected_from (params, reply) = [] ->
  gathered (log ++ [(params, reply)]) = gathered log.
Proof. intros H. now rewrite gathered_snoc, H, app_nil_r. Qed.

Lemma run_fetch source w0 st w c :
  run_inv source w0 st w ->
  cursor st = Some c -> PyStr.lt EARLIEST_DATE c = true ->
  exists log,
    let e' := (page_before c, source (length (fetches w)) (page_before c)) in
    frame w0 w log
    /\ frame w0 (served source (page_before c) w) (log ++ [e'])
    /\ length (log ++ [e']) = batch_count st + 1
    /\ batch_count st <= 1000
    /\ all_data st = gathered log
    /\ Forall answered log
    /\ genuine source w0 (log ++ [e'])
    /\ consecutive follows (log ++ [e'])
    /\ starts_newest (log ++ [e']).
Proof.
  intros (log & e & Hfirst & Hframe & Hlen & Hbc & Hdata & Hgen & Hans & Hcons
          & Hlast & Hold & Hlow) Hc Hfloor.
  exists log. cbv zeta.
  split; [exact Hframe|]. split; [now apply frame_served|].
  split; [rewrite length_app; cbn; lia|]. split; [exact Hbc|].
  split; [exact Hdata|]. split; [exact Hans|].
  split; [now apply (genuine_snoc source w0 w)|].
  split.
  - apply (consecutive_snoc follows log e); [exact Hcons|exact Hlast|].
    split.
    + exists c. rewrite Hold. auto.
    + intros c1 Hc1. exists c. split; [reflexivity|].
      apply (Hlow c1 c Hc1). now rewrite Hold.
  - destruct Hfirst as (e0 & He0 & Hnewest). exists e0.
    split; [|exact Hnewest]. rewrite lookup_app_l; [exact He0|].
    now apply lookup_lt_Some in He0.
Qed.

Lemma run_step source w0 st w r w' :
  run_inv source w0 st w -> iteration source st w r w' ->
  match r with
  | Ok (Continue st') => run_inv source w0 st' w'
  | Ok (Break why l) => run_post source w0 (Ok (why, l)) w'
  | Raise e => run_post source w0 (Raise e) w'
  | OutOfFuel => True
  end.
Proof.
  intros Hinv Hit.
  destruct Hit as [Hnil|c Hc Hrep Hcnt|c Hc Hns Hfloor
                  |c Hc Hns Hfloor Hsrc|c response Hc Hns Hfloor Hsrc Hno
                  |c page Hc Hns Hfloor Hsrc Hne Hf
                  |c page Hc Hns Hfloor Hsrc Hne Hlen
                  |c page Hc Hns Hfloor Hsrc Hne Hf Hbc
                  |c page Hc Hns Hfloor Hsrc Hne Hf Hbc].
  1-3: destruct Hinv as (log & e & Hfirst & Hframe & Hlen & Hbc & Hdata & Hgen
                         & Hans & Hcons & Hlast & _);
       assert (Hpos : 1 <= length log)
         by (destruct log; [discriminate|cbn; lia]);
       exists log; split; [exact Hfirst|]; split; [exact Hframe|]; split; [lia|];
       split; [exact Hgen|]; split; [exact Hcons|];
       split; [exact Hans|]; cbn [returned]; rewrite <- Hdata.
  - now rewrite Hnil.
  - reflexivity.
  - reflexivity.
  - destruct (run_fetch _ _ _ _ _ Hinv Hc Hfloor)
      as (log & _ & Hf' & Hlen & Hbc & Hdata & Hans & Hgen & Hcons & Hfirst).
    exists (log ++ [(page_before c, source (length (fetches w)) (page_before c))]).
    split; [exact Hfirst|].
    split; [exact Hf'|]. split; [lia|]. split; [exact Hgen|].
    split; [exact Hcons|]. split; [reflexivity|].
    exists log, (page_before c). now rewrite Hsrc.
  - destruct (run_fetch _ _ _ _ _ Hinv Hc Hfloor)
      as (log & _ & Hf' & Hlen & Hbc & Hdata & Hans & Hgen & Hcons & Hfirst).
    exists (log ++ [(page_before c, source (length (fetches w)) (page_before c))]).
    split; [exact Hfirst|].
    split; [exact Hf'|]. split; [lia|]. split; [exact Hgen|].
    split; [exact Hcons|]. rewrite Hsrc. split; [now apply answered_snoc|].
    cbn [returned]. rewrite gathered_snoc_nothing; [exact Hdata|].
    unfold collected_from. cbn [fst snd before_created_at page_before].
    destruct response as [d]. cbn in Hno. destruct Hno as [->| ->]; reflexivity.
  - destruct (run_fetch _ _ _ _ _ Hinv Hc Hfloor)
      as (log & _ & Hf' & Hlen & Hbc & Hdata & Hans & Hgen & Hcons & Hfirst).
    exists (log ++ [(page_before c, source (length (fetches w)) (page_before c))]).
    split; [exact Hfirst|].
    split; [exact Hf'|]. split; [lia|]. split; [exact Hgen|].
    split; [exact Hcons|]. rewrite Hsrc. split; [now apply answered_snoc|].
    cbn [returned]. rewrite gathered_snoc_nothing; [exact Hdata|].
    unfold collected_from. cbn [fst snd before_created_at page_before data].
    exact Hf.
  - destruct (run_fetch _ _ _ _ _ Hinv Hc Hfloor)
      as (log & _ & Hf' & Hlen' & Hbc & Hdata & Hans & Hgen & Hcons & Hfirst).
    exists (log ++ [(page_before c, source (length (fetches w)) (page_before c))]).
    split; [exact Hfirst|].
    split; [exact Hf'|]. split; [lia|]. split; [exact Hgen|].
    split; [exact Hcons|]. rewrite Hsrc. split; [now apply answered_snoc|].
    cbn [returned]. rewrite gathered_snoc, Hdata. reflexivity.
  - destruct (run_fetch _ _ _ _ _ Hinv Hc Hfloor)
      as (log & _ & Hf' & Hlen & Hbc' & Hdata & Hans & Hgen & Hcons & Hfirst).
    exists (log ++ [(page_before c, source (length (fetches w)) (page_before c))]).
    split; [exact Hfirst|].
    split; [exact Hf'|]. split; [lia|]. split; [exact Hgen|].
    split; [exact Hcons|]. rewrite Hsrc. split; [now apply answered_snoc|].
    cbn [returned]. rewrite gathered_snoc, Hdata. f_equal.
    unfold collected_from. cbn [fst snd before_created_at page_before data].
    now rewrite Hf.
  - destruct (run_fetch _ _ _ _ _ Hinv Hc Hfloor)
      as (log & _ & Hf' & Hlen & Hbc' & Hdata & Hans & Hgen & Hcons & Hfirst).
    destruct (cursor_app st page Hne) as (x & Hx & Hlast').
    exists (log ++ [(page_before c, source (length (fetches w)) (page_before c))]),
      (page_before c, source (length (fetches w)) (page_before c)).
    split; [exact Hfirst|].
    split; [exact Hf'|]. split; [exact Hlen|]. split; [exact Hbc|].
    split.
    { cbn [all_data]. rewrite gathered_snoc, Hdata. f_equal.
      unfold collected_from. cbn [fst snd]. rewrite Hsrc.
      cbn [before_created_at page_before data]. now rewrite Hf. }
    split; [exact Hgen|].
    split; [rewrite Hsrc; now apply answered_snoc|].
    split; [exact Hcons|]. split; [apply last_snoc|].
    assert (Hold' : oldest_of (page_before c,
                      source (length (fetches w)) (page_before c))
                    = Some (created_at x)).
    { unfold oldest_of. cbn [snd]. now rewrite Hsrc, Hx. }
    split.
    { rewrite Hold'. unfold cursor. cbn [all_data]. now rewrite Hlast'. }
    intros c0 t [= <-] Ht. rewrite Hold' in Ht. injection Ht as <-.
    now destruct (in_range_all c page x Hf (last_In _ _ Hx)).
Qed.

Lemma genuine_first source w params :
  feed params = FEED -> limit params = BATCH_LIMIT ->
  genuine source w [(params, source (length (fetches w)) params)].
Proof.
  intros Hfeed Hlimit i e Hi. destruct i as [|i]; [|discriminate].
  injection Hi as <-. cbn [fst snd]. now rewrite Nat.add_0_r.
Qed.

Lemma run_inv_start source w page :
  source (length (fetches w)) newest_page = Json {| data := Some page |} ->
  run_inv source w (start page) (served source newest_page w).
Proof.
  intros Hsrc.
  exists [(newest_page, source (length (fetches w)) newest_page)],
    (newest_page, source (length (fetches w)) newest_page).
  split; [now eexists|]. split; [apply frame_start|].
  split; [reflexivity|]. split; [cbn; lia|].
  split; [unfold gathered, collected_from; cbn; rewrite Hsrc; cbn;
          now rewrite app_nil_r|].
  split; [now apply genuine_first|].
  split; [repeat constructor; unfold answered; cbn; now rewrite Hsrc|].
  split; [intros i a b _ Hb; destruct i; discriminate|].
  split; [reflexivity|].
  split; [unfold oldest_of, cursor; cbn [snd]; now rewrite Hsrc|].
  intros c t [=].
Qed.

(** The log of a download, and how its outcome relates to it. *)
Lemma download_log source fuel w :
  1000 <= fuel ->
  exists log,
    frame w (snd (download_all_data_exit source fuel w)) log
    /\ starts_newest log
    /\ 1 <= length log <= 1001
    /\ genuine source w log
    /\ consecutive follows log
    /\ match fst (download_all_data_exit source fuel w) with
       | Ok (Some why, l) => outcome (Ok (why, l)) log
       | Ok (None, l) =>
           l = [] /\ log = [(newest_page, Json {| data := None |})]
       | Raise e => outcome (Raise e) log
       | OutOfFuel => False
       end.
Proof.
  intros Hfuel. rewrite download_all_data_exit_run.
  destruct (source (length (fetches w)) newest_page) as [|[[page|]]] eqn:Hsrc.
  - exists [(newest_page, Unavailable)]. cbn [fst snd].
    pose proof (frame_start source newest_page w) as Hfs.
    pose proof (genuine_first source w newest_page eq_refl eq_refl) as Hgf.
    rewrite Hsrc in Hfs, Hgf.
    split; [exact Hfs|]. split; [now eexists|]. split; [cbn; lia|].
    split; [exact Hgf|].
    split; [intros i a b _ Hb; destruct i; discriminate|].
    split; [reflexivity|]. exists [], newest_page. split; [reflexivity|constructor].
  - cbn [fst snd].
    destruct (while_True source fuel (start page) (served source newest_page w))
      as [r w'] eqn:Hrun.
    pose proof (while_True_enough source fuel (start page)
                  (served source newest_page w) Hfuel) as [Hend _]; [cbn; lia|].
    rewrite Hrun in Hend. cbn [fst snd] in *.
    apply (while_True_rule source (run_inv source w) (run_post source w))
      in Hrun as [->|Hpost]; [congruence| | |now apply run_inv_start].
    + destruct Hpost as (log & Hfirst & Hframe & Hlen & Hgen & Hcons & Hout).
      exists log. repeat (split; [assumption|]).
      destruct r as [[why l]|e|]; cbn [tag_exit fst snd]; [exact Hout..|].
      exact Hout.
    + clear. intros st w1 r w1' Hinv Hit.
      pose proof (run_step _ _ _ _ _ _ Hinv Hit) as H.
      destruct r as [[why l|st']| |]; auto.
  - exists [(newest_page, Json {| data := None |})]. cbn [fst snd].
    pose proof (frame_start source newest_page w) as Hfs.
    pose proof (genuine_first source w newest_page eq_refl eq_refl) as Hgf.
    rewrite Hsrc in Hfs, Hgf.
    split; [exact Hfs|]. split; [now eexists|]. split; [cbn; lia|].
    split; [exact Hgf|].
    split; [intros i a b _ Hb; destruct i; discriminate|].
    split; reflexivity.
Qed.

Lemma new_fetches_download source fuel w log :
  frame w (snd (download_all_data_exit source fuel w)) log ->
  new_fetches (download_all_data source fuel) w = log.
Proof.
  intros (Hf & _). unfold new_fetches, exec.
  rewrite download_all_data_run. cbn [snd]. rewrite Hf. apply drop_app_length.
Qed.

Lemma result_download source fuel w :
  result (download_all_data source fuel) w
  = untag (fst (download_all_data_exit source fuel w)).
Proof. unfold result. now rewrite download_all_data_run. Qed.

Lemma full_download_raises source json_loads fuel w e :
  result (download_all_data source fuel) w = Raise e ->
  result (full_download source json_loads fuel) w = Raise e.
Proof.
  unfold result. rewrite full_download_run.
  destruct (download_all_data source fuel w) as [r w1]. cbn. now intros ->.
Qed.

(** X6. In Mode A, when the reply to the first request has no [data] field
    or an empty [data], the run ends normally after that single request: it
    downloads the empty list, writes nothing and leaves the store as it was;
    no error reaches the caller. *)
Theorem empty_first_page_ends_quietly source json_loads fuel w response :
  is_truthy (latest_created_at (sensor_data w)) = false ->
  1 <= fuel ->
  source (length (fetches w)) newest_page = Json response ->
  data response = None \/ data response = Some [] ->
  result (download_all_data source fuel) w = Ok []
  /\ result (main source json_loads fuel) w = Ok tt
  /\ new_writes (main source json_loads fuel) w = []
  /\ sensor_data (exec (main source json_loads fuel) w) = sensor_data w
  /\ new_fetches (main source json_loads fuel) w
     = [(newest_page, Json response)].
Proof.
  intros Hmode Hfuel Hsrc Hno.
  assert (Hrun : download_all_data source fuel w
                 = (Ok [], served source newest_page w)).
  { rewrite download_all_data_run, download_all_data_exit_run, Hsrc.
    destruct response as [[[|x page]|]]; cbn in Hno;
      [|destruct Hno; discriminate|reflexivity].
    destruct fuel as [|fuel]; [lia|]. reflexivity. }
  destruct (main_as_full_download source json_loads fuel w Hmode)
    as (Hmr & Hme & Hmw).
  assert (Hfull : full_download source json_loads fuel w
                  = (Ok tt, served source newest_page w)).
  { rewrite full_download_run, Hrun. cbn. now rewrite stored_nil. }
  split; [unfold result; now rewrite Hrun|].
  split; [rewrite Hmr; unfold result; now rewrite Hfull|].
  split; [rewrite Hmw; unfold new_writes, exec; rewrite Hfull; cbn;
          apply drop_all|].
  split; [rewrite Hme; unfold exec; now rewrite Hfull|].
  unfold new_fetches. rewrite Hme. unfold exec. rewrite Hfull. cbn.
  rewrite drop_app_length. now rewrite Hsrc.
Qed.

Lemma answered_not_unavailable (log : list (Params * Reply)) i params :
  Forall answered log -> log !! i = Some (params, Unavailable) -> False.
Proof.
  intros Hall Hi. rewrite Forall_forall in Hall.
  apply (Hall (params, Unavailable)); [|reflexivity].
  eapply list_elem_of_lookup_2; eauto.
Qed.

(** X7. In Mode A, when a request fails, at whatever point of the
    download, it is the last request, the run raises the request error, and
    nothing is written: the samples fetched before the failure are not
    saved. *)
Theorem failed_request_saves_nothing source json_loads fuel w i params :
  1000 <= fuel ->
  is_truthy (latest_created_at (sensor_data w)) = false ->
  new_fetches (download_all_data source fuel) w !! i
  = Some (params, Unavailable) ->
  length (new_fetches (download_all_data source fuel) w) = S i
  /\ result (main source json_loads fuel) w = Raise RequestError
  /\ new_writes (main source json_loads fuel) w = []
  /\ sensor_data (exec (main source json_loads fuel) w) = sensor_data w.
Proof.
  intros Hfuel Hmode Hi.
  destruct (download_log source fuel w Hfuel)
    as (log & Hframe & _ & _ & _ & _ & Hout).
  rewrite (new_fetches_download _ _ _ _ Hframe) in *.
  destruct (main_as_full_download source json_loads fuel w Hmode)
    as (Hmr & Hme & Hmw).
  pose proof (result_download source fuel w) as Hres.
  destruct (fst (download_all_data_exit source fuel w)) as [[[why|] l]|e|];
    cbn [untag snd] in Hres.
  - destruct Hout as [Hans _]. now destruct (answered_not_unavailable _ _ _ Hans Hi).
  - destruct Hout as [_ ->]. destruct i; discriminate.
  - destruct Hout as (-> & log0 & p & -> & Hans).
    assert (Hlast : i = length log0).
    { destruct (decide (i < length log0)) as [Hlt|Hge].
      - rewrite lookup_app_l in Hi by lia.
        now destruct (answered_not_unavailable _ _ _ Hans Hi).
      - apply lookup_lt_Some in Hi. rewrite length_app in Hi. cbn in Hi. lia. }
    split; [rewrite length_app; cbn; lia|].
    split; [rewrite Hmr; now apply full_download_raises|].
    split; [now rewrite Hmw, full_download_writes, Hres|].
    now rewrite Hme, full_download_store, Hres.
  - destruct Hout.
Qed.

Lemma gathered_In (log : list (Params * Reply)) sample :
  In sample (gathered log) ->
  exists params page,
    In (params, Json {| data := Some page |}) log /\ In sample page.
Proof.
  unfold gathered. rewrite in_flat_map. intros ([params reply] & He & Hs).
  unfold collected_from in Hs. cbn [fst snd] in Hs.
  destruct reply as [|[[page|]]]; try (now destruct Hs).
  exists params, page. split; [exact He|].
  destruct (before_created_at params); [|exact Hs].
  now apply List.filter_In in Hs as [Hs _].
Qed.

(** X8. A full download ends, and what it returns is determined by the
    replies it received: the initial page followed, for each later request,
    by the samples of its page that are on or after [EARLIEST_DATE] and
    strictly before its cursor, in the order received; the list is cut down
    to the samples on or after [EARLIEST_DATE] when the loop is left at
    the floor check.  It raises only when its last request failed; every
    sample it returns was in a page it fetched. *)
Theorem download_returns_gathered source fuel w :
  1000 <= fuel ->
  let log := new_fetches (download_all_data source fuel) w in
  match fst (download_all_data_exit source fuel w) with
  | Ok (exit, l) =>
      Forall answered log
      /\ l = match exit with
             | Some ReachedEarliestDate =>
                 List.filter not_before_earliest (gathered log)
             | _ => gathered log
             end
      /\ forall sample, In sample l ->
           exists params page,
             In (params, Json {| data := Some page |}) log /\ In sample page
  | Raise e =>
      e = RequestError /\ exists params, last log = Some (params, Unavailable)
  | OutOfFuel => False
  end.
Proof.
  intros Hfuel log.
  destruct (download_log source fuel w Hfuel)
    as (log' & Hframe & _ & _ & _ & _ & Hout).
  unfold log. rewrite (new_fetches_download _ _ _ _ Hframe). clear log.
  destruct (fst (download_all_data_exit source fuel w)) as [[[why|] l]|e|].
  - destruct Hout as [Hans ->]. split; [exact Hans|].
    split; [now destruct why|].
    intros sample Hin. apply gathered_In.
    destruct why; cbn [returned] in Hin; try exact Hin.
    now apply List.filter_In in Hin as [Hin _].
  - destruct Hout as [-> ->]. split; [repeat constructor; discriminate|].
    split; [reflexivity|]. intros sample [].
  - destruct Hout as (-> & log0 & p & -> & _). split; [reflexivity|].
    exists p. apply last_snoc.
  - exact Hout.
Qed.

(** X9. The requests of a full download form a chain.  The first one asks
    for the newest page; each later one asks for the page before the oldest
    timestamp of the page returned just before it, and that cursor is
    after [EARLIEST_DATE] (hence not empty) and strictly below the cursor
    of the request before; every request carries the feed [json] and the
    limit 200 and is answered by the source in the order of the log. *)
Theorem download_requests_chain source fuel w :
  1000 <= fuel ->
  let log := new_fetches (download_all_data source fuel) w in
  (exists reply, log !! 0 = Some (newest_page, reply))
  /\ (forall i a b, log !! i = Some a -> log !! S i = Some b ->
        exists c, oldest_of a = Some c
                  /\ b.1 = page_before c
                  /\ PyStr.lt EARLIEST_DATE c = true
                  /\ c <> ""
                  /\ forall c1, before_created_at a.1 = Some c1 ->
                       PyStr.lt c c1 = true)
  /\ (forall i e, log !! i = Some e ->
        e.2 = source (length (fetches w) + i) e.1
        /\ feed e.1 = "json" /\ limit e.1 = 200)
  /\ 1 <= length log <= 1001.
Proof.
  intros Hfuel log.
  destruct (download_log source fuel w Hfuel)
    as (log' & Hframe & Hfirst & Hlen & Hgen & Hcons & _).
  unfold log. rewrite (new_fetches_download _ _ _ _ Hframe). clear log.
  split; [|split; [|split; [exact Hgen|exact Hlen]]].
  - destruct Hfirst as ([p reply] & H0 & Hp). cbn in Hp. subst p. eauto.
  - intros i a b Ha Hb. destruct (Hcons i a b Ha Hb) as [(c & Hc & Hreq & Hlt) Hlow].
    exists c. repeat split; auto.
    + intros ->. discriminate.
    + intros c1 Hc1. destruct (Hlow c1 Hc1) as (c2 & Hc2 & Hlt2).
      rewrite Hreq in Hc2. cbn in Hc2. now injection Hc2 as <-.
Qed.

(** ** The order of the downloaded list *)

Lemma descending_cons a (l : list RawSample) :
  descending (a :: l) = true
  <-> Forall (fun y => PyStr.le (created_at y) (created_at a) = true) l
      /\ descending l = true.
Proof.
  revert a. induction l as [|b l IH]; intros a.
  - cbn. split; auto.
  - cbn [descending]. rewrite andb_true_iff. fold (descending (b :: l)).
    rewrite (IH b). split.
    + intros (Hba & Hall & Hd). split; [|now split].
      constructor; [exact Hba|].
      eapply Forall_impl; [exact Hall|]. cbn. intros y Hy.
      now apply (PyStrFacts.le_trans _ (created_at b)).
    + intros (Hall & Hrest). apply Forall_cons_1 in Hall as [Hba _].
      now split.
Qed.

Lemma descending_filter f (l : list RawSample) :
  descending l = true -> descending (List.filter f l) = true.
Proof.
  induction l as [|a l IH]; [reflexivity|].
  rewrite descending_cons. intros [Hall Hd]. cbn [List.filter].
  destruct (f a); [|now apply IH].
  apply descending_cons. split; [|now apply IH].
  apply Forall_forall. intros y Hy. apply list_elem_of_In in Hy.
  apply List.filter_In in Hy as [Hy _].
  rewrite Forall_forall in Hall. apply Hall. now apply list_elem_of_In.
Qed.

Lemma descending_app (l1 l2 : list RawSample) :
  descending l1 = true -> descending l2 = true ->
  (forall x y, In x l1 -> In y l2 ->
     PyStr.le (created_at y) (created_at x) = true) ->
  descending (l1 ++ l2) = true.
Proof.
  induction l1 as [|a l1 IH]; [auto|].
  rewrite descending_cons. intros [Hall Hd1] Hd2 Hcross.
  cbn [app]. apply descending_cons. split.
  - apply Forall_app. split; [exact Hall|].
    apply Forall_forall. intros y Hy. apply list_elem_of_In in Hy.
    apply Hcross; [now left|exact Hy].
  - apply IH; auto. intros x y Hx Hy. apply Hcross; [now right|exact Hy].
Qed.

Lemma descending_head (l : list RawSample) first sample :
  descending l = true -> head l = Some first -> In sample l ->
  PyStr.le (created_at sample) (created_at first) = true.
Proof.
  destruct l as [|a l]; [discriminate|]. intros Hd [= <-] [<-|Hin].
  - apply PyStrFacts.le_refl.
  - apply descending_cons in Hd as [Hall _]. rewrite Forall_forall in Hall.
    apply Hall. now apply list_elem_of_In.
Qed.

Lemma descending_step source st w r w' :
  pages_descending source ->
  descending (all_data st) = true -> iteration source st w r w' ->
  match r with
  | Ok (Continue st') => descending (all_data st') = true
  | Ok (Break why l) => descending l = true
  | _ => True
  end.
Proof.
  intros Hpages Hd Hit.
  assert (Hbelow : forall c page,
            cursor st = Some c ->
            forall x y, In x (all_data st) ->
            In y (List.filter (in_range c) page) ->
            PyStr.le (created_at y) (created_at x) = true).
  { intros c page Hc x y Hx Hy. unfold cursor in Hc.
    destruct (last (all_data st)) as [z|] eqn:Hlast; [|discriminate].
    injection Hc as <-.
    apply List.filter_In in Hy as [_ Hy]. unfold in_range in Hy.
    apply andb_true_iff in Hy as [_ Hy].
    apply (PyStrFacts.le_trans _ (created_at z)); [now apply PyStrFacts.lt_le|].
    now apply (descending_last (all_data st)). }
  destruct Hit as [Hnil|c Hc Hrep Hcnt|c Hc Hns Hfloor
                  |c Hc Hns Hfloor Hsrc|c response Hc Hns Hfloor Hsrc Hno
                  |c page Hc Hns Hfloor Hsrc Hne Hf
                  |c page Hc Hns Hfloor Hsrc Hne Hlen
                  |c page Hc Hns Hfloor Hsrc Hne Hf Hbc
                  |c page Hc Hns Hfloor Hsrc Hne Hf Hbc];
    try exact I; try exact Hd; try reflexivity.
  - now apply descending_filter.
  - apply descending_app; [exact Hd| |exact (Hbelow c page Hc)].
    apply descending_filter. eapply Hpages; eauto.
  - rewrite <- Hf. apply descending_app; [exact Hd| |exact (Hbelow c page Hc)].
    apply descending_filter. eapply Hpages; eauto.
  - cbn [all_data]. rewrite <- Hf.
    apply descending_app; [exact Hd| |exact (Hbelow c page Hc)].
    apply descending_filter. eapply Hpages; eauto.
Qed.

Lemma download_descending source fuel w l :
  pages_descending source ->
  result (download_all_data source fuel) w = Ok l ->
  descending l = true.
Proof.
  intros Hpages. rewrite result_download, download_all_data_exit_run.
  destruct (source (length (fetches w)) newest_page) as [|[[page|]]] eqn:Hsrc;
    cbn; try discriminate.
  2:{ now intros [= <-]. }
  destruct (while_True source fuel (start page) (served source newest_page w))
    as [r w1] eqn:Hrun.
  apply (while_True_rule source (fun st _ => descending (all_data st) = true)
           (fun r _ => forall out, r = Ok out -> descending (snd out) = true))
    in Hrun.
  - destruct Hrun as [->|Hr]; [discriminate|].
    destruct r as [out| |]; cbn; try discriminate.
    intros [= <-]. now apply Hr.
  - intros st w2 r2 w2' Hd Hit.
    pose proof (descending_step _ _ _ _ _ Hpages Hd Hit) as H.
    destruct r2 as [[why l'|st']| |]; auto; try discriminate.
    intros out [= <-]. exact H.
  - cbn. eapply Hpages; eauto.
Qed.

(** X10. Against a source whose pages are ordered descending, a full
    download ends and the list it returns is ordered descending as a whole:
    its first sample has the latest timestamp of the list and its last
    sample the earliest. *)
Theorem download_is_descending source fuel w :
  pages_descending source ->
  1000 <= fuel ->
  result (download_all_data source fuel) w <> OutOfFuel
  /\ forall l, result (download_all_data source fuel) w = Ok l ->
       descending l = true
       /\ forall first oldest sample,
            head l = Some first -> last l = Some oldest -> In sample l ->
            PyStr.le (created_at oldest) (created_at sample) = true
            /\ PyStr.le (created_at sample) (created_at first) = true.
Proof.
  intros Hpages Hfuel. split; [now apply download_ends|].
  intros l Hres. pose proof (download_descending _ _ _ _ Hpages Hres) as Hd.
  split; [exact Hd|]. intros first oldest sample Hfirst Hlast Hin.
  split; [now apply (descending_last l)|now apply (descending_head l)].
Qed.

(** ** Mode B on a descending page *)

Lemma scan_new_descending T (page acc : list RawSample) :
  descending page = true ->
  scan_new T page acc
  = acc ++ List.filter (fun s => PyStr.lt T (created_at s)) page.
Proof.
  revert acc. induction page as [|a page IH]; intros acc Hd.
  - cbn. now rewrite app_nil_r.
  - apply descending_cons in Hd as [Hall Hd]. cbn [scan_new List.filter].
    destruct (PyStr.lt T (created_at a)) eqn:Hlt.
    + rewrite IH by assumption. now rewrite <- app_assoc.
    + replace (List.filter (fun s => PyStr.lt T (created_at s)) page) with
        (@nil RawSample); [now rewrite app_nil_r|].
      symmetry. clear IH Hd. induction page as [|b page IHp]; [reflexivity|].
      apply Forall_cons_1 in Hall as [Hb Hall]. cbn [List.filter].
      assert (Hle : PyStr.le (created_at b) T = true).
      { apply (PyStrFacts.le_trans _ (created_at a)); [exact Hb|].
        now rewrite PyStrFacts.le_not_lt, Hlt. }
      rewrite PyStrFacts.lt_not_le, Hle. cbn. now apply IHp.
Qed.

(** X11. In incremental mode, when the newest page is ordered descending,
    stopping at the first sample that is not newer than the watermark loses
    nothing: the run saves exactly the samples of the page that are
    strictly newer than the watermark, and when they all decode each of
    them is written under its key. *)
Theorem incremental_takes_all_newer source json_loads fuel w T page :
  latest_created_at (sensor_data w) = Some T ->
  PyStr.truthy T = true ->
  source (length (fetches w)) newest_page = Json {| data := Some page |} ->
  descending page = true ->
  let newer := List.filter (fun s => PyStr.lt T (created_at s)) page in
  new_writes (main source json_loads fuel) w = saved_entries json_loads newer
  /\ (Forall (decodes json_loads) newer ->
      result (main source json_loads fuel) w = Ok tt
      /\ forall sample, In sample page -> newer_than T sample ->
           exists record,
             In (timestamp_key sample, record)
                (new_writes (main source json_loads fuel) w)
             /\ sensor_record json_loads sample = Ok record).
Proof.
  intros Hlatest Htruthy Hreply Hd newer.
  pose proof (main_incremental source json_loads fuel T w Hlatest Htruthy)
    as Hmain.
  rewrite (incremental_run _ _ _ page _ Hreply) in Hmain.
  rewrite (scan_new_descending T page [] Hd) in Hmain. cbn [app] in Hmain.
  fold newer in Hmain.
  assert (Hwrites : new_writes (main source json_loads fuel) w
                    = saved_entries json_loads newer).
  { unfold new_writes, exec. rewrite Hmain. cbn. apply drop_app_length. }
  split; [exact Hwrites|]. intros Hdec. split.
  - unfold result. rewrite Hmain. cbn.
    apply saved_entries_decodes in Hdec as (_ & _ & ->). reflexivity.
  - intros sample Hin Hnew. rewrite Hwrites.
    assert (Hs : In sample newer) by (apply List.filter_In; auto).
    clear Hwrites Hmain. induction Hdec as [|x l [r Hr] _ IH]; [destruct Hs|].
    cbn [saved_entries]. rewrite Hr. destruct Hs as [->|Hs].
    + exists r. split; [now left|exact Hr].
    + destruct (IH Hs) as (r' & Hin' & Hr'). exists r'. split; [now right|exact Hr'].
Qed.

(** X12. The date floor is not applied in incremental mode: a sample of the
    newest page that is newer than the watermark is written even when it is
    before [EARLIEST_DATE]. *)
Theorem incremental_ignores_floor source json_loads fuel w T sample rest record :
  latest_created_at (sensor_data w) = Some T ->
  PyStr.truthy T = true ->
  source (length (fetches w)) newest_page
  = Json {| data := Some (sample :: rest) |} ->
  newer_than T sample ->
  PyStr.lt (created_at sample) EARLIEST_DATE = true ->
  sensor_record json_loads sample = Ok record ->
  head (new_writes (main source json_loads fuel) w)
  = Some (timestamp_key sample, record)
  /\ rec_created_at record = created_at sample
  /\ PyStr.le EARLIEST_DATE (rec_created_at record) = false.
Proof.
  intros Hlatest Htruthy Hreply Hnew Hold Hrec.
  pose proof (main_incremental source json_loads fuel T w Hlatest Htruthy)
    as Hmain.
  rewrite (incremental_run _ _ _ _ _ Hreply) in Hmain.
  destruct (scan_new_split T rest [sample]) as (newer & tl & _ & _ & _ & Hscan).
  cbn [scan_new] in Hmain. unfold newer_than in Hnew. rewrite Hnew in Hmain.
  cbn [app] in Hmain. rewrite Hscan in Hmain. cbn [app saved_entries] in Hmain.
  rewrite Hrec in Hmain.
  assert (Hts : rec_created_at record = created_at sample).
  { unfold sensor_record in Hrec.
    destruct (json_loads (value sample)); [|discriminate].
    destruct (field j "temperature"); try discriminate.
    destruct (field j "humidity"); try discriminate.
    destruct (field j "soil"); try discriminate.
    now inversion Hrec. }
  split; [|split; [exact Hts|]].
  - unfold new_writes, exec. rewrite Hmain. cbn. now rewrite drop_app_length.
  - rewrite Hts, PyStrFacts.le_not_lt, Hold. reflexivity.
Qed.

(** ** The size of a download *)

Lemma collected_from_bound source (e : Params * Reply) n :
  honours_limit source ->
  e.2 = source n e.1 -> limit e.1 = BATCH_LIMIT ->
  length (collected_from e) <= BATCH_LIMIT.
Proof.
  intros Hlimit Hreply Hl. unfold collected_from.
  destruct e as [params reply]. cbn [fst snd] in *.
  destruct reply as [|[[page|]]]; cbn [data]; try (cbn; lia).
  symmetry in Hreply. apply Hlimit in Hreply. rewrite Hl in Hreply.
  destruct (before_created_at params); [|exact Hreply].
  pose proof (List.filter_length_le (in_range s) page). lia.
Qed.

Lemma gathered_bound (log : list (Params * Reply)) :
  Forall (fun e => length (collected_from e) <= BATCH_LIMIT) log ->
  length (gathered log) <= BATCH_LIMIT * length log.
Proof.
  induction 1 as [|e log He _ IH]; [cbn; lia|].
  unfold gathered in *. cbn [flat_map]. rewrite length_app. cbn [length]. lia.
Qed.

(** X13. Against a source that never returns more samples than the limit
    of the request, a full download collects at most 200 samples per
    request it issued, hence at most 200 * 1001 samples, and a run in Mode A
    writes at most as many records. *)
Theorem download_is_bounded source json_loads fuel w :
  honours_limit source ->
  1000 <= fuel ->
  result (download_all_data source fuel) w <> OutOfFuel
  /\ (forall l, result (download_all_data source fuel) w = Ok l ->
        length l
        <= 200 * length (new_fetches (download_all_data source fuel) w)
        /\ length l <= 200 * 1001)
  /\ length (new_writes (full_download source json_loads fuel) w) <= 200 * 1001.
Proof.
  intros Hlimit Hfuel.
  assert (Hbound : forall l, result (download_all_data source fuel) w = Ok l ->
            length l
            <= 200 * length (new_fetches (download_all_data source fuel) w)
            /\ length l <= 200 * 1001).
  { intros l Hres.
    destruct (download_log source fuel w Hfuel)
      as (log & Hframe & _ & Hlen & Hgen & _ & Hout).
    rewrite (new_fetches_download _ _ _ _ Hframe).
    rewrite result_download in Hres.
    assert (Hg : length (gathered log) <= 200 * length log).
    { change 200 with BATCH_LIMIT. apply (gathered_bound log).
      apply Forall_lookup. intros i e Hi.
      destruct (Hgen i e Hi) as (Hreply & _ & Hl).
      now apply (collected_from_bound source e (length (fetches w) + i)). }
    assert (Hl : length l <= length (gathered log)).
    { destruct (fst (download_all_data_exit source fuel w)) as [[[why|] l']|e|];
        cbn in Hres; try discriminate; injection Hres as <-.
      - destruct Hout as [_ ->]. destruct why; cbn [returned]; try lia.
        apply List.filter_length_le.
      - destruct Hout as [-> _]. cbn. lia. }
    lia. }
  split; [now apply download_ends|]. split; [exact Hbound|].
  rewrite full_download_writes.
  destruct (result (download_all_data source fuel) w) as [l| |] eqn:Hres;
    try (cbn [length]; lia).
  pose proof (saved_entries_length json_loads l).
  destruct (Hbound l eq_refl). lia.
Qed.

(** ** Running again *)

Lemma latest_after_save (entries : list (string * SensorRecord))
  (m : gmap string SensorRecord) key0 record0 :
  In (key0, record0) entries ->
  (forall key record, In (key, record) entries ->
     PyStr.le (rec_created_at record) (rec_created_at record0) = true) ->
  (forall key record, m !! key = Some record ->
     PyStr.le (rec_created_at record) (rec_created_at record0) = true) ->
  (forall record, In (key0, record) entries ->
     rec_created_at record = rec_created_at record0) ->
  latest_created_at (put_all entries m) = Some (rec_created_at record0).
Proof.
  intros Hin Hbelow Hold Hfaithful.
  assert (Hlatest : is_latest (put_all entries m) (rec_created_at record0)).
  { split.
    - destruct (binding_present key0 entries) as [record Hb].
      { apply list_elem_of_In, in_map_iff. now exists (key0, record0). }
      exists key0, record. rewrite put_all_binding, Hb. split; [reflexivity|].
      apply Hfaithful. now apply binding_In.
    - intros key record. rewrite put_all_binding.
      destruct (binding key entries) as [r|] eqn:Hb.
      + intros [= <-]. apply (Hbelow key). now apply binding_In.
      + apply Hold. }
  pose proof (latest_created_at_spec (put_all entries m)) as Hspec.
  destruct (latest_created_at (put_all entries m)) as [t|].
  - f_equal. now apply (is_latest_unique (put_all entries m)).
  - destruct Hlatest as [(k & r & Hk & _) _].
    rewrite Hspec, lookup_empty in Hk. discriminate.
Qed.

Lemma nothing_newer_writes_nothing source json_loads fuel w T page :
  latest_created_at (sensor_data w) = Some T ->
  PyStr.truthy T = true ->
  source (length (fetches w)) newest_page = Json {| data := Some page |} ->
  descending page = true ->
  Forall (fun y => PyStr.lt T (created_at y) = false) page ->
  main source json_loads fuel w = (Ok tt, served source newest_page w).
Proof.
  intros Hlatest Htruthy Hreply Hd Hnone.
  rewrite (main_incremental _ _ _ T) by assumption.
  rewrite (incremental_run _ _ _ page) by assumption.
  rewrite (scan_new_descending T page [] Hd). cbn [app].
  replace (List.filter (fun s => PyStr.lt T (created_at s)) page)
    with (@nil RawSample).
  - cbn. now rewrite stored_nil.
  - symmetry. clear - Hnone. induction Hnone as [|y l Hy _ IH]; [reflexivity|].
    cbn [List.filter]. now rewrite Hy.
Qed.

Lemma floor_truthy t : PyStr.le EARLIEST_DATE t = true -> PyStr.truthy t = true.
Proof. destruct t; [discriminate|reflexivity]. Qed.

Lemma newer_truthy T t : PyStr.lt T t = true -> PyStr.truthy t = true.
Proof.
  destruct t; [|reflexivity]. unfold PyStr.lt, String.ltb.
  destruct T; discriminate.
Qed.

Lemma first_page_in_gathered (log : list (Params * Reply)) page reply sample :
  log !! 0 = Some (newest_page, reply) ->
  reply = Json {| data := Some page |} ->
  In sample page -> In sample (gathered log).
Proof.
  intros H0 -> Hin. unfold gathered. apply in_flat_map.
  exists (newest_page, Json {| data := Some page |}). split.
  - apply list_elem_of_In. eapply list_elem_of_lookup_2; eauto.
  - exact Hin.
Qed.

Lemma latest_empty : latest_created_at (∅ : gmap string SensorRecord) = None.
Proof. unfold latest_created_at. apply map_fold_empty. Qed.

Lemma saved_entries_head json_loads (l : list RawSample) :
  saved_entries json_loads l <> [] ->
  exists first rest record,
    l = first :: rest
    /\ sensor_record json_loads first = Ok record
    /\ In (timestamp_key first, record) (saved_entries json_loads l)
    /\ rec_created_at record = created_at first.
Proof.
  destruct l as [|first rest]; [now intros []|]. cbn [saved_entries].
  destruct (sensor_record json_loads first) as [record| |] eqn:Hrec;
    [|now intros []..].
  intros _. exists first, rest, record.
  split; [reflexivity|]. split; [exact Hrec|]. split; [now left|].
  unfold sensor_record in Hrec.
  destruct (json_loads (value first)); [|discriminate].
  destruct (field j "temperature"); try discriminate.
  destruct (field j "humidity"); try discriminate.
  destruct (field j "soil"); try discriminate.
  now inversion Hrec.
Qed.

(** X14. After a run in Mode A on an empty store has written at least one
    record, a second run against the same unchanging source with
    descending pages finds the timestamp of the first downloaded sample as
    the latest one, takes the incremental branch, issues one request and
    writes nothing.  This holds as well when the first run raised while
    saving: the samples it had not yet written are not written by the
    second run.  (Samples of the download stored under one key are assumed
    to carry one timestamp.) *)
Theorem rerun_after_backfill_writes_nothing source json_loads fuel w :
  unchanging source ->
  pages_descending source ->
  sensor_data w = ∅ ->
  1000 <= fuel ->
  (forall l, result (download_all_data source fuel) w = Ok l ->
             keys_faithful l) ->
  new_writes (main source json_loads fuel) w <> [] ->
  let w1 := exec (main source json_loads fuel) w in
  (exists first rest,
     result (download_all_data source fuel) w = Ok (first :: rest)
     /\ latest_created_at (sensor_data w1) = Some (created_at first))
  /\ main source json_loads fuel w1 = (Ok tt, served source newest_page w1)
  /\ new_writes (main source json_loads fuel) w1 = []
  /\ sensor_data (exec (main source json_loads fuel) w1) = sensor_data w1.
Proof.
  intros Hsame Hpages Hempty Hfuel Hkeys Hwrote w1.
  assert (Hmode : is_truthy (latest_created_at (sensor_data w)) = false)
    by now rewrite Hempty, latest_empty.
  destruct (main_as_full_download source json_loads fuel w Hmode)
    as (_ & Hme & Hmw).
  rewrite Hmw, full_download_writes in Hwrote.
  destruct (result (download_all_data source fuel) w) as [l| |] eqn:Hres;
    try (now destruct Hwrote).
  destruct (saved_entries_head json_loads l Hwrote)
    as (first & rest & record & Hl & Hrec & Hin & Hts).
  pose proof (download_descending _ _ _ _ Hpages Hres) as Hd.
  assert (Hfloor : Forall on_or_after_floor l).
  { unfold result in Hres.
    destruct (download_all_data source fuel w) as [r w'] eqn:Hrun.
    cbn in Hres. subst r. now apply (download_floor _ _ _ _ _ Hpages Hrun). }
  assert (Hstore : sensor_data w1 = put_all (saved_entries json_loads l) ∅).
  { unfold w1. now rewrite Hme, full_download_store, Hres, Hempty. }
  assert (Hlatest : latest_created_at (sensor_data w1) = Some (created_at first)).
  { rewrite Hstore, <- Hts.
    apply (latest_after_save _ _ (timestamp_key first)); [exact Hin| | |].
    - intros key r Hr. apply saved_entries_In in Hr as (s & Hs & _ & -> & _).
      rewrite Hts. apply (descending_head l); [exact Hd|now rewrite Hl|exact Hs].
    - intros key r Hk. rewrite lookup_empty in Hk. discriminate.
    - intros r Hr. apply saved_entries_In in Hr as (s & Hs & Hkey & -> & _).
      rewrite Hts. apply (Hkeys l eq_refl); [exact Hs|rewrite Hl; now left|].
      now symmetry. }
  assert (Hfirst : on_or_after_floor first).
  { rewrite Hl in Hfloor. now apply Forall_cons_1 in Hfloor as [? _]. }
  (* the reply to the first request of the first run *)
  destruct (download_log source fuel w Hfuel)
    as (log & _ & (e0 & H0 & Hp0) & _ & Hgen & _ & Hout).
  destruct (Hgen 0 e0 H0) as (Hreply0 & _). rewrite Nat.add_0_r, Hp0 in Hreply0.
  destruct e0 as [p0 reply0]. cbn [fst snd] in Hp0, Hreply0. subst p0.
  rewrite result_download in Hres.
  destruct (fst (download_all_data_exit source fuel w)) as [[[why|] l0]|e|]
    eqn:Hexit; cbn in Hres; try discriminate; injection Hres as ->.
  2:{ destruct Hout as [Hnil _]. rewrite Hnil in Hl. discriminate. }
  destruct Hout as [Hans Hret].
  destruct reply0 as [|[[page|]]].
  { now destruct (answered_not_unavailable _ _ _ Hans H0). }
  2:{ rewrite download_all_data_exit_run, <- Hreply0 in Hexit. discriminate. }
  assert (Hnone : Forall (fun y => PyStr.lt (created_at first) (created_at y)
                                   = false) page).
  { apply Forall_forall. intros y Hy. apply list_elem_of_In in Hy.
    pose proof (first_page_in_gathered log page _ y H0 eq_refl Hy) as Hg.
    assert (Hcases : In y l \/ PyStr.le EARLIEST_DATE (created_at y) = false).
    { rewrite Hret. destruct why; cbn [returned]; auto.
      destruct (PyStr.le EARLIEST_DATE (created_at y)) eqn:Hfl; [left|now right].
      apply List.filter_In. split; [exact Hg|exact Hfl]. }
    rewrite PyStrFacts.lt_not_le. apply negb_false_iff.
    destruct Hcases as [Hyl|Hbelow].
    - apply (descending_head l); [exact Hd|now rewrite Hl|exact Hyl].
    - apply (PyStrFacts.le_trans _ EARLIEST_DATE); [|exact Hfirst].
      apply PyStrFacts.lt_le. now rewrite PyStrFacts.lt_not_le, Hbelow. }
  assert (Hmain2 : main source json_loads fuel w1
                   = (Ok tt, served source newest_page w1)).
  { apply (nothing_newer_writes_nothing _ _ _ _ (created_at first) page).
    - exact Hlatest.
    - now apply floor_truthy.
    - now rewrite (Hsame _ (length (fetches w))).
    - apply (Hpages (length (fetches w)) newest_page). now symmetry.
    - exact Hnone. }
  split; [exists first, rest; split; [now rewrite Hl|exact Hlatest]|].
  split; [exact Hmain2|].
  unfold new_writes, exec. rewrite Hmain2. cbn. split; [apply drop_all|reflexivity].
Qed.

Lemma incremental_descending_run source json_loads fuel w T page :
  latest_created_at (sensor_data w) = Some T ->
  PyStr.truthy T = true ->
  source (length (fetches w)) newest_page = Json {| data := Some page |} ->
  descending page = true ->
  main source json_loads fuel w
  = (unit_of (save_outcome json_loads
                (List.filter (fun s => PyStr.lt T (created_at s)) page) 0),
     stored (saved_entries json_loads
               (List.filter (fun s => PyStr.lt T (created_at s)) page))
            (served source newest_page w)).
Proof.
  intros Hlatest Htruthy Hreply Hd.
  rewrite (main_incremental _ _ _ T) by assumption.
  rewrite (incremental_run _ _ _ page) by assumption.
  now rewrite (scan_new_descending T page [] Hd).
Qed.

(** X15. After an incremental run against an unchanging source whose newest
    page is ordered descending, a second run writes nothing and leaves the
    store as the first run left it, whether the first run saved all the
    newer samples, none, or raised after saving some of them.  (Newer
    samples stored under one key are assumed to carry one timestamp.) *)
Theorem rerun_after_increment_writes_nothing source json_loads fuel w T page :
  unchanging source ->
  latest_created_at (sensor_data w) = Some T ->
  PyStr.truthy T = true ->
  source (length (fetches w)) newest_page = Json {| data := Some page |} ->
  descending page = true ->
  keys_faithful (List.filter (fun s => PyStr.lt T (created_at s)) page) ->
  let w1 := exec (main source json_loads fuel) w in
  new_writes (main source json_loads fuel) w1 = []
  /\ sensor_data (exec (main source json_loads fuel) w1) = sensor_data w1
  /\ length (new_fetches (main source json_loads fuel) w1) = 1
  /\ (new_writes (main source json_loads fuel) w <> [] ->
      result (main source json_loads fuel) w1 = Ok tt
      /\ exists first rest,
           page = first :: rest
           /\ latest_created_at (sensor_data w1) = Some (created_at first)).
Proof.
  intros Hsame Hlatest Htruthy Hreply Hd Hkeys w1.
  set (newer := List.filter (fun s => PyStr.lt T (created_at s)) page) in *.
  pose proof (incremental_descending_run source json_loads fuel w T page
                Hlatest Htruthy Hreply Hd) as Hmain.
  fold newer in Hmain.
  assert (Hwrites : new_writes (main source json_loads fuel) w
                    = saved_entries json_loads newer).
  { unfold new_writes, exec. rewrite Hmain. cbn. apply drop_app_length. }
  assert (Hstore : sensor_data w1
                   = put_all (saved_entries json_loads newer) (sensor_data w)).
  { unfold w1, exec. now rewrite Hmain. }
  assert (Hreply1 : source (length (fetches w1)) newest_page
                    = Json {| data := Some page |})
    by now rewrite (Hsame _ (length (fetches w))).
  assert (Hcase : saved_entries json_loads newer = []
                  \/ saved_entries json_loads newer <> []).
  { destruct (saved_entries json_loads newer); [now left|now right]. }
  destruct Hcase as [Hes|Hne].
  - (* nothing was written: the second run repeats the first *)
    assert (Hlatest1 : latest_created_at (sensor_data w1) = Some T)
      by now rewrite Hstore, Hes.
    pose proof (incremental_descending_run source json_loads fuel w1 T page
                  Hlatest1 Htruthy Hreply1 Hd) as Hmain1.
    fold newer in Hmain1. rewrite Hes in Hmain1.
    split; [unfold new_writes, exec; rewrite Hmain1; cbn;
            rewrite app_nil_r; apply drop_all|].
    split; [unfold exec; now rewrite Hmain1|].
    split; [unfold new_fetches, exec; rewrite Hmain1; cbn;
            now rewrite drop_app_length|].
    rewrite Hwrites, Hes. intros Hwrote. now destruct Hwrote.
  - destruct (saved_entries_head json_loads newer Hne)
      as (first & rest & record & Hl & Hrec & Hin & Hts).
    assert (Hdn : descending newer = true) by now apply descending_filter.
    assert (Hfirst : In first page /\ PyStr.lt T (created_at first) = true).
    { apply (List.filter_In (fun s => PyStr.lt T (created_at s))).
      fold newer. rewrite Hl. now left. }
    destruct Hfirst as [Hfirst_in Hfirst_new].
    pose proof (latest_created_at_spec (sensor_data w)) as Hold.
    rewrite Hlatest in Hold. destruct Hold as [_ Hold].
    assert (Hlatest1 : latest_created_at (sensor_data w1)
                       = Some (created_at first)).
    { rewrite Hstore, <- Hts.
      apply (latest_after_save _ _ (timestamp_key first)); [exact Hin| | |].
      - intros key r Hr. apply saved_entries_In in Hr as (s & Hs & _ & -> & _).
        rewrite Hts. apply (descending_head newer); [exact Hdn|now rewrite Hl|exact Hs].
      - intros key r Hk. rewrite Hts.
        apply (PyStrFacts.le_trans _ T); [now apply (Hold key)|].
        now apply PyStrFacts.lt_le.
      - intros r Hr. apply saved_entries_In in Hr as (s & Hs & Hkey & -> & _).
        rewrite Hts. apply Hkeys; [exact Hs|rewrite Hl; now left|now symmetry]. }
    assert (Hnone : Forall (fun y => PyStr.lt (created_at first) (created_at y)
                                     = false) page).
    { apply Forall_forall. intros y Hy. apply list_elem_of_In in Hy.
      rewrite PyStrFacts.lt_not_le. apply negb_false_iff.
      destruct (PyStr.lt T (created_at y)) eqn:Hnew.
      - apply (descending_head newer); [exact Hdn|now rewrite Hl|].
        apply List.filter_In. auto.
      - apply (PyStrFacts.le_trans _ T); [|now apply PyStrFacts.lt_le].
        now rewrite PyStrFacts.le_not_lt, Hnew. }
    pose proof (nothing_newer_writes_nothing source json_loads fuel w1
                  (created_at first) page Hlatest1
                  (newer_truthy _ _ Hfirst_new) Hreply1 Hd Hnone) as Hmain1.
    split; [unfold new_writes, exec; rewrite Hmain1; cbn; apply drop_all|].
    split; [unfold exec; now rewrite Hmain1|].
    split; [unfold new_fetches, exec; rewrite Hmain1; cbn;
            now rewrite drop_app_length|].
    intros _. split; [unfold result; now rewrite Hmain1|].
    assert (Hhead : head page = Some first).
    { destruct page as [|q page']; [destruct Hfirst_in|].
      change (Some q = Some first). f_equal.
      unfold newer in Hl. cbn [List.filter] in Hl.
      destruct (PyStr.lt T (created_at q)) eqn:Hq;
        [injection Hl as Hqf _; exact Hqf|].
      exfalso. apply descending_cons in Hd as [Hall _].
      destruct Hfirst_in as [->|Hin']; [congruence|].
      rewrite Forall_forall in Hall.
      pose proof (Hall first (proj2 (list_elem_of_In _ _) Hin')) as Hle.
      assert (Hq' : PyStr.le (created_at q) T = true)
        by now rewrite PyStrFacts.le_not_lt, Hq.
      pose proof (PyStrFacts.le_trans _ _ _ Hle Hq') as HfT.
      rewrite PyStrFacts.lt_not_le, HfT in Hfirst_new. discriminate. }
    destruct page as [|q page']; [discriminate|]. injection Hhead as ->.
    exists first, page'. split; [reflexivity|exact Hlatest1].
Qed.

(** ** These theorems on the concrete runs *)


Lemma failing_source_unchanging : unchanging Cases.failing_source.
Proof. intros n m params. reflexivity. Defined.

Lemma flawed_source_unchanging : unchanging Cases.flawed_source.
Proof. intros n m params. reflexivity. Defined.

Lemma flawed_source_descending : pages_descending Cases.flawed_source.
Proof.
  intros n params page. unfold Cases.flawed_source.
  destruct (before_created_at params); intros [= <-]. reflexivity.
Defined.

Lemma five_source_unchanging : unchanging Demo.five_source.
Proof. intros n m params. reflexivity. Defined.

Lemma limited_source_honours_limit : honours_limit Cases.limited_source.
Proof.
  intros n params page. unfold Cases.limited_source.
  destruct (Demo.paged_source n params) as [|[[p|]]]; try discriminate.
  intros [= <-]. rewrite length_take. lia.
Defined.


Lemma empty_first_page_ends_quietly_witness :
  is_truthy (latest_created_at (sensor_data Demo.empty_world)) = false
  /\ 1 <= 1
  /\ Cases.silent_source (length (fetches Demo.empty_world)) newest_page
     = Json {| data := None |}
  /\ result (main Cases.silent_source Demo.loads 1) Demo.empty_world = Ok tt.
Proof.
  assert (H1 : is_truthy (latest_created_at (sensor_data Demo.empty_world)) = false)
    by (vm_compute; reflexivity).
  split; [exact H1|]. split; [lia|]. split; [reflexivity|].
  exact (proj1 (proj2 (empty_first_page_ends_quietly Cases.silent_source
                         Demo.loads 1 Demo.empty_world {| data := None |}
                         H1 (le_n 1) eq_refl (or_introl eq_refl)))).
Defined.

Lemma failed_request_saves_nothing_witness :
  1000 <= 1000
  /\ is_truthy (latest_created_at (sensor_data Demo.empty_world)) = false
  /\ new_fetches (download_all_data Cases.failing_source 1000) Demo.empty_world
       !! 1 = Some (page_before Demo.t4, Unavailable)
  /\ result (main Cases.failing_source Demo.loads 1000) Demo.empty_world
     = Raise RequestError
  /\ new_writes (main Cases.failing_source Demo.loads 1000) Demo.empty_world = [].
Proof.
  assert (H2 : is_truthy (latest_created_at (sensor_data Demo.empty_world)) = false)
    by (vm_compute; reflexivity).
  assert (H3 : new_fetches (download_all_data Cases.failing_source 1000)
                 Demo.empty_world !! 1
               = Some (page_before Demo.t4, Unavailable))
    by (vm_compute; reflexivity).
  split; [lia|]. split; [exact H2|]. split; [exact H3|].
  destruct (failed_request_saves_nothing Cases.failing_source Demo.loads 1000
              Demo.empty_world 1 _ (le_n 1000) H2 H3) as (_ & Hr & Hw & _).
  split; [exact Hr|exact Hw].
Defined.

Lemma download_returns_gathered_witness :
  1000 <= 1000
  /\ match fst (download_all_data_exit Demo.paged_source 1000 Demo.empty_world) with
     | Ok (exit, l) =>
         l = match exit with
             | Some ReachedEarliestDate =>
                 List.filter not_before_earliest
                   (gathered (new_fetches (download_all_data Demo.paged_source 1000)
                                Demo.empty_world))
             | _ => gathered (new_fetches (download_all_data Demo.paged_source 1000)
                                Demo.empty_world)
             end
     | _ => False
     end.
Proof.
  split; [lia|].
  pose proof (download_returns_gathered Demo.paged_source 1000 Demo.empty_world
                (le_n 1000)) as H.
  cbv zeta in H.
  destruct (fst (download_all_data_exit Demo.paged_source 1000 Demo.empty_world))
    as [[exit l]|e|] eqn:Hexit.
  - exact (proj1 (proj2 H)).
  - vm_compute in Hexit. discriminate.
  - exact H.
Defined.

Lemma download_requests_chain_witness :
  1000 <= 1000
  /\ 1 <= length (new_fetches (download_all_data Demo.paged_source 1000)
                    Demo.empty_world) <= 1001.
Proof.
  split; [lia|].
  exact (proj2 (proj2 (proj2 (download_requests_chain Demo.paged_source 1000
                                Demo.empty_world (le_n 1000))))).
Defined.

Lemma download_is_descending_witness :
  pages_descending Demo.paged_source
  /\ 1000 <= 1000
  /\ result (download_all_data Demo.paged_source 1000) Demo.empty_world
     <> OutOfFuel.
Proof.
  split; [exact paged_source_descending|]. split; [lia|].
  exact (proj1 (download_is_descending Demo.paged_source 1000 Demo.empty_world
                  paged_source_descending (le_n 1000))).
Defined.

Lemma incremental_takes_all_newer_witness :
  latest_created_at (sensor_data Demo.synced_world) = Some Demo.t1
  /\ PyStr.truthy Demo.t1 = true
  /\ Demo.five_source (length (fetches Demo.synced_world)) newest_page
     = Json {| data := Some Demo.newest_five |}
  /\ descending Demo.newest_five = true
  /\ new_writes (main Demo.five_source Demo.loads 1000) Demo.synced_world
     = saved_entries Demo.loads
         (List.filter (fun s => PyStr.lt Demo.t1 (created_at s)) Demo.newest_five).
Proof.
  assert (H1 : latest_created_at (sensor_data Demo.synced_world) = Some Demo.t1)
    by (vm_compute; reflexivity).
  split; [exact H1|]. split; [reflexivity|]. split; [reflexivity|].
  split; [reflexivity|].
  exact (proj1 (incremental_takes_all_newer Demo.five_source Demo.loads 1000
                  Demo.synced_world Demo.t1 Demo.newest_five
                  H1 eq_refl eq_refl eq_refl)).
Defined.

Lemma incremental_ignores_floor_witness :
  latest_created_at (sensor_data Cases.old_world) = Some Cases.old1
  /\ PyStr.truthy Cases.old1 = true
  /\ Cases.old_source (length (fetches Cases.old_world)) newest_page
     = Json {| data := Some [Demo.sample_at Cases.old2] |}
  /\ newer_than Cases.old1 (Demo.sample_at Cases.old2)
  /\ PyStr.lt (created_at (Demo.sample_at Cases.old2)) EARLIEST_DATE = true
  /\ sensor_record Demo.loads (Demo.sample_at Cases.old2)
     = Ok (Demo.record_at Cases.old2)
  /\ head (new_writes (main Cases.old_source Demo.loads 1000) Cases.old_world)
     = Some (timestamp_key (Demo.sample_at Cases.old2),
             Demo.record_at Cases.old2).
Proof.
  assert (H1 : latest_created_at (sensor_data Cases.old_world) = Some Cases.old1)
    by (vm_compute; reflexivity).
  split; [exact H1|]. split; [reflexivity|]. split; [reflexivity|].
  split; [reflexivity|]. split; [reflexivity|]. split; [reflexivity|].
  exact (proj1 (incremental_ignores_floor Cases.old_source Demo.loads 1000
                  Cases.old_world Cases.old1 (Demo.sample_at Cases.old2) []
                  (Demo.record_at Cases.old2)
                  H1 eq_refl eq_refl eq_refl eq_refl eq_refl)).
Defined.

Lemma download_is_bounded_witness :
  honours_limit Cases.limited_source
  /\ 1000 <= 1000
  /\ length (new_writes (full_download Cases.limited_source Demo.loads 1000)
               Demo.empty_world) <= 200 * 1001.
Proof.
  split; [exact limited_source_honours_limit|]. split; [lia|].
  exact (proj2 (proj2 (download_is_bounded Cases.limited_source Demo.loads 1000
                         Demo.empty_world limited_source_honours_limit
                         (le_n 1000)))).
Defined.

Ltac faithful_by_cases :=
  let a := fresh "a" in let b := fresh "b" in
  let Ha := fresh "Ha" in let Hb := fresh "Hb" in let Hk := fresh "Hk" in
  intros a b Ha Hb Hk; vm_compute in Ha, Hb;
  repeat match goal with
         | H : _ \/ _ |- _ => destruct H as [H|H]
         | H : False |- _ => destruct H
         end;
  subst; first [reflexivity | vm_compute in Hk; discriminate].

Lemma flawed_download_faithful l :
  result (download_all_data Cases.flawed_source 1000) Demo.empty_world = Ok l ->
  keys_faithful l.
Proof.
  intros Hres. vm_compute in Hres. injection Hres as <-. faithful_by_cases.
Defined.

Lemma rerun_after_backfill_writes_nothing_witness :
  unchanging Cases.flawed_source
  /\ pages_descending Cases.flawed_source
  /\ sensor_data Demo.empty_world = ∅
  /\ 1000 <= 1000
  /\ new_writes (main Cases.flawed_source Demo.loads 1000) Demo.empty_world <> []
  /\ result (main Cases.flawed_source Demo.loads 1000) Demo.empty_world
     = Raise (KeyError "soil")
  /\ new_writes (main Cases.flawed_source Demo.loads 1000)
       (exec (main Cases.flawed_source Demo.loads 1000) Demo.empty_world) = [].
Proof.
  assert (Hwrote : new_writes (main Cases.flawed_source Demo.loads 1000)
                     Demo.empty_world <> [])
    by (vm_compute; discriminate).
  split; [exact flawed_source_unchanging|].
  split; [exact flawed_source_descending|]. split; [reflexivity|].
  split; [lia|]. split; [exact Hwrote|]. split; [vm_compute; reflexivity|].
  exact (proj1 (proj2 (proj2
           (rerun_after_backfill_writes_nothing Cases.flawed_source Demo.loads
              1000 Demo.empty_world flawed_source_unchanging
              flawed_source_descending eq_refl (le_n 1000)
              flawed_download_faithful Hwrote)))).
Defined.

Lemma newest_five_faithful :
  keys_faithful
    (List.filter (fun s => PyStr.lt Demo.t1 (created_at s)) Demo.newest_five).
Proof. faithful_by_cases. Defined.

Lemma rerun_after_increment_writes_nothing_witness :
  unchanging Demo.five_source
  /\ latest_created_at (sensor_data Demo.synced_world) = Some Demo.t1
  /\ PyStr.truthy Demo.t1 = true
  /\ Demo.five_source (length (fetches Demo.synced_world)) newest_page
     = Json {| data := Some Demo.newest_five |}
  /\ descending Demo.newest_five = true
  /\ new_writes (main Demo.five_source Demo.loads 1000)
       (exec (main Demo.five_source Demo.loads 1000) Demo.synced_world) = [].
Proof.
  assert (H1 : latest_created_at (sensor_data Demo.synced_world) = Some Demo.t1)
    by (vm_compute; reflexivity).
  split; [exact five_source_unchanging|]. split; [exact H1|].
  split; [reflexivity|]. split; [reflexivity|]. split; [reflexivity|].
  exact (proj1 (rerun_after_increment_writes_nothing Demo.five_source Demo.loads
                  1000 Demo.synced_world Demo.t1 Demo.newest_five
                  five_source_unchanging H1 eq_refl eq_refl eq_refl
                  newest_five_faithful)).
Defined.

(** ** The choice of the mode *)




(** ** Samples before the floor *)

Lemma paged_entry_in_range (log : list (Params * Reply)) i e sample :
  consecutive follows log -> log !! S i = Some e ->
  In sample (collected_from e) -> on_or_after_floor sample.
Proof.
  intros Hcons He Hin.
  assert (Hprev : is_Some (log !! i)).
  { apply lookup_lt_is_Some. apply lookup_lt_Some in He. lia. }
  destruct Hprev as [a Ha].
  destruct (Hcons i a e Ha He) as [(c & _ & Hreq & _) _].
  unfold collected_from in Hin. rewrite Hreq in Hin. cbn in Hin.
  destruct (e.2) as [|[[page|]]]; try (now destruct Hin).
  apply List.filter_In in Hin as [_ Hin]. unfold in_range in Hin.
  now apply andb_true_iff in Hin as [Hin _].
Qed.

(** X17. Whatever the order of the pages, a sample a full download returns
    is on or after [EARLIEST_DATE] unless it comes from the initial page:
    only the page fetched first, which is appended unfiltered, can bring a
    sample from before the floor into the list that is saved. *)
Theorem only_first_page_can_precede_floor source fuel w :
  1000 <= fuel ->
  result (download_all_data source fuel) w <> OutOfFuel
  /\ forall l sample,
       result (download_all_data source fuel) w = Ok l ->
       In sample l ->
       on_or_after_floor sample
       \/ exists page,
            source (length (fetches w)) newest_page
            = Json {| data := Some page |}
            /\ In sample page.
Proof.
  intros Hfuel. split; [now apply download_ends|].
  intros l sample Hres Hin.
  destruct (download_log source fuel w Hfuel)
    as (log & _ & (e0 & H0 & Hp0) & _ & Hgen & Hcons & Hout).
  rewrite result_download in Hres.
  destruct (fst (download_all_data_exit source fuel w)) as [[[why|] l0]|e|];
    cbn in Hres; try discriminate; injection Hres as ->.
  2:{ destruct Hout as [-> _]. destruct Hin. }
  destruct Hout as [_ ->].
  assert (Hg : In sample (gathered log)).
  { destruct why; cbn [returned] in Hin; try exact Hin.
    now apply List.filter_In in Hin as [Hin _]. }
  unfold gathered in Hg. apply in_flat_map in Hg as (e & He & Hs).
  apply list_elem_of_In, list_elem_of_lookup in He as [i Hi].
  destruct i as [|i].
  - right. rewrite H0 in Hi. injection Hi as <-.
    destruct (Hgen 0 e0 H0) as (Hreply & _).
    rewrite Nat.add_0_r, Hp0 in Hreply.
    unfold collected_from in Hs. rewrite Hp0 in Hs. cbn in Hs.
    rewrite <- Hreply.
    destruct (e0.2) as [|[[page|]]]; try (now destruct Hs).
    now exists page.
  - left. now apply (paged_entry_in_range log i e).
Qed.

(** ** Mode B without a page *)

(** X18. In incremental mode, a reply without [data] ends the run normally
    and a failed request makes it raise the request error; either way the
    single request is all the run did: nothing is written. *)
Theorem incremental_without_page source json_loads fuel w T :
  latest_created_at (sensor_data w) = Some T ->
  PyStr.truthy T = true ->
  (forall page, source (length (fetches w)) newest_page
                <> Json {| data := Some page |}) ->
  exec (main source json_loads fuel) w = served source newest_page w
  /\ (source (length (fetches w)) newest_page = Unavailable ->
      result (main source json_loads fuel) w = Raise RequestError)
  /\ (source (length (fetches w)) newest_page <> Unavailable ->
      result (main source json_loads fuel) w = Ok tt).
Proof.
  intros Hlatest Htruthy Hnone.
  pose proof (main_incremental source json_loads fuel T w Hlatest Htruthy)
    as Hmain.
  unfold exec, result. rewrite Hmain.
  unfold incremental, download_new_data, bind. rewrite fetch_batch_run.
  change (params_of None) with newest_page.
  destruct (source (length (fetches w)) newest_page) as [|[[page|]]].
  - cbn. repeat split; congruence.
  - now destruct (Hnone page).
  - cbn. repeat split; congruence.
Qed.

(** ** A complete backfill *)




Lemma only_first_page_can_precede_floor_witness :
  1000 <= 1000
  /\ result (download_all_data Demo.paged_source 1000) Demo.empty_world
     <> OutOfFuel.
Proof.
  split; [lia|].
  exact (proj1 (only_first_page_can_precede_floor Demo.paged_source 1000
                  Demo.empty_world (le_n 1000))).
Defined.

Lemma incremental_without_page_witness :
  latest_created_at (sensor_data Demo.synced_world) = Some Demo.t1
  /\ PyStr.truthy Demo.t1 = true
  /\ (forall page, Cases.silent_source (length (fetches Demo.synced_world))
                     newest_page <> Json {| data := Some page |})
  /\ exec (main Cases.silent_source Demo.loads 1000) Demo.synced_world
     = served Cases.silent_source newest_page Demo.synced_world.
Proof.
  assert (H1 : latest_created_at (sensor_data Demo.synced_world) = Some Demo.t1)
    by (vm_compute; reflexivity).
  assert (H3 : forall page,
             Cases.silent_source (length (fetches Demo.synced_world)) newest_page
             <> Json {| data := Some page |})
    by (intros page; discriminate).
  split; [exact H1|]. split; [reflexivity|]. split; [exact H3|].
  exact (proj1 (incremental_without_page Cases.silent_source Demo.loads 1000
                  Demo.synced_world Demo.t1 H1 eq_refl H3)).
Defined.

